(** * touch.c: the polling loop of the CH552 three-key touch pad

    A shallow embedding of [main] of [src/touch.c], the firmware that turns
    three key switches and a rotary encoder into HID touch-contact reports
    and NeoPixel colours, and the properties of one polling cycle and of
    runs of cycles.

    The C code talks to the outside world through the GPIO, delay, NeoPixel
    and HID helpers.  Every such call is recorded as an [Event]; what a
    [PIN_read] returns is supplied by the environment, one value per call
    site of a cycle ([Lines]).  Program variables live in a [State] record
    whose fields carry the names of the C variables; the start-up code of
    lines 66-146 is represented by the values it leaves in them
    ([init_state]) and, with its calls, by [startup].  The only loop inside
    the loop body, the busy-wait of
    line 208, takes a bound on the number of readings; a cycle whose wait
    is not over within the bound yields no result. *)

From Stdlib Require Import ZArith Bool List Lia.
From stdpp Require Import base list.
Import ListNotations.
Open Scope Z_scope.

(** ** Data model *)

(** The pins the loop names (src/config.h gives their numbers, which the
    loop never looks at). *)
Inductive Pin : Type :=
  | PIN_KEY1 | PIN_KEY2 | PIN_KEY3
  | PIN_ENC_SW | PIN_ENC_A | PIN_ENC_B
  | PIN_LED.

(** The six report arrays of [main]; [HID_sendReport] is handed one of them
    by address. *)
Inductive Template : Type :=
  | DownReport1 | UpReport1
  | DownReport2 | UpReport2
  | DownReport3 | UpReport3.

(** Calls into the external collaborators, in program order. *)
Inductive Event : Type :=
  | EvPinRead (p : Pin) (level : bool)
  | EvPinToggle (p : Pin)
  | EvDelay (ms : Z)
  | EvWriteColor (pixel r g b : Z)
  | EvClearPixel (pixel : Z)
  | EvSendReport (buf : Template) (bytes : list Z) (len : Z)
  | EvUpdate.

(** The variables of [main] that live across the loop (lines 83-144).
    [unsigned char] arrays are lists of bytes, [int] and [unsigned int]
    are integers; SDCC's [unsigned int] is 16 bits wide. *)
Record State : Type := mkState {
  touchDownReport1 : list Z;
  touchUpReport1 : list Z;
  touchDownReport2 : list Z;
  touchUpReport2 : list Z;
  touchDownReport3 : list Z;
  touchUpReport3 : list Z;
  touchCount : Z;
  lampLight : Z;
  keysChanged : Z;
  key1Pressed : Z;
  key2Pressed : Z;
  key3Pressed : Z;
  knobDirection : Z;
  keyDirty : Z
}.

(** Initial values, lines 83-144. *)
Definition init_state : State := {|
  touchDownReport1 := [0x01; 0x01; 0x03; 0x7F; 0xfa; 0x03; 0xf4; 0x01];
  touchUpReport1   := [0x00; 0x01; 0x00; 0x00; 0x00; 0x00; 0x00; 0x00];
  touchDownReport2 := [0x01; 0x02; 0x03; 0x7F; 0x88; 0x13; 0x88; 0x13];
  touchUpReport2   := [0x00; 0x02; 0x00; 0x00; 0x00; 0x00; 0x00; 0x00];
  touchDownReport3 := [0x01; 0x03; 0x03; 0x7F; 0xf3; 0x20; 0x39; 0x24];
  touchUpReport3   := [0x00; 0x03; 0x00; 0x00; 0x00; 0x00; 0x00; 0x00];
  touchCount := 0;
  lampLight := 0;
  keysChanged := 0;
  key1Pressed := 0;
  key2Pressed := 0;
  key3Pressed := 0;
  knobDirection := 0;
  keyDirty := 0
|}.

(** Assignments to the variables the loop writes. *)
Definition set_touchCount (v : Z) (s : State) : State :=
  mkState (touchDownReport1 s) (touchUpReport1 s) (touchDownReport2 s)
    (touchUpReport2 s) (touchDownReport3 s) (touchUpReport3 s)
    v (lampLight s) (keysChanged s) (key1Pressed s) (key2Pressed s)
    (key3Pressed s) (knobDirection s) (keyDirty s).

Definition set_lampLight (v : Z) (s : State) : State :=
  mkState (touchDownReport1 s) (touchUpReport1 s) (touchDownReport2 s)
    (touchUpReport2 s) (touchDownReport3 s) (touchUpReport3 s)
    (touchCount s) v (keysChanged s) (key1Pressed s) (key2Pressed s)
    (key3Pressed s) (knobDirection s) (keyDirty s).

Definition set_key1Pressed (v : Z) (s : State) : State :=
  mkState (touchDownReport1 s) (touchUpReport1 s) (touchDownReport2 s)
    (touchUpReport2 s) (touchDownReport3 s) (touchUpReport3 s)
    (touchCount s) (lampLight s) (keysChanged s) v (key2Pressed s)
    (key3Pressed s) (knobDirection s) (keyDirty s).

Definition set_key2Pressed (v : Z) (s : State) : State :=
  mkState (touchDownReport1 s) (touchUpReport1 s) (touchDownReport2 s)
    (touchUpReport2 s) (touchDownReport3 s) (touchUpReport3 s)
    (touchCount s) (lampLight s) (keysChanged s) (key1Pressed s) v
    (key3Pressed s) (knobDirection s) (keyDirty s).

Definition set_key3Pressed (v : Z) (s : State) : State :=
  mkState (touchDownReport1 s) (touchUpReport1 s) (touchDownReport2 s)
    (touchUpReport2 s) (touchDownReport3 s) (touchUpReport3 s)
    (touchCount s) (lampLight s) (keysChanged s) (key1Pressed s)
    (key2Pressed s) v (knobDirection s) (keyDirty s).

Definition set_keyDirty (v : Z) (s : State) : State :=
  mkState (touchDownReport1 s) (touchUpReport1 s) (touchDownReport2 s)
    (touchUpReport2 s) (touchDownReport3 s) (touchUpReport3 s)
    (touchCount s) (lampLight s) (keysChanged s) (key1Pressed s)
    (key2Pressed s) (key3Pressed s) (knobDirection s) v.

(** The array behind a [Template] name. *)
Definition buffer (t : Template) (s : State) : list Z :=
  match t with
  | DownReport1 => touchDownReport1 s
  | UpReport1 => touchUpReport1 s
  | DownReport2 => touchDownReport2 s
  | UpReport2 => touchUpReport2 s
  | DownReport3 => touchDownReport3 s
  | UpReport3 => touchUpReport3 s
  end.

Definition set_buffer (t : Template) (v : list Z) (s : State) : State :=
  mkState
    (match t with DownReport1 => v | _ => touchDownReport1 s end)
    (match t with UpReport1 => v | _ => touchUpReport1 s end)
    (match t with DownReport2 => v | _ => touchDownReport2 s end)
    (match t with UpReport2 => v | _ => touchUpReport2 s end)
    (match t with DownReport3 => v | _ => touchDownReport3 s end)
    (match t with UpReport3 => v | _ => touchUpReport3 s end)
    (touchCount s) (lampLight s) (keysChanged s) (key1Pressed s)
    (key2Pressed s) (key3Pressed s) (knobDirection s) (keyDirty s).

(** C integer conventions. *)
Definition truthy (z : Z) : bool := negb (z =? 0).
Definition to_uint16 (z : Z) : Z := z mod 65536.
Definition to_uint8 (z : Z) : Z := z mod 256.

(** [sizeof] of each eight-element report array. *)
Definition sizeof_report : Z := 8.

(** What the pins return during one pass through the loop body: one level
    per [PIN_read] call site ([true] is a high line; every input is
    active-low), and the successive readings of the busy-wait of line 208. *)
Record Lines : Type := mkLines {
  key1_level : bool;
  key2_level : bool;
  key3_level : bool;
  enc_sw_level : bool;
  enc_a_level : bool;
  enc_b_level : bool;
  enc_a_wait : nat -> bool
}.

(** ** The program monad: state, event log, and non-return *)

Definition M (A : Type) : Type := State -> option (A * State * list Event).

#[global] Instance M_ret : MRet M := fun A (a : A) s => Some (a, s, []).

#[global] Instance M_bind : MBind M := fun A B (f : A -> M B) (m : M A) s =>
  match m s with
  | None => None
  | Some (a, s1, e1) =>
      match f a s1 with
      | None => None
      | Some (b, s2, e2) => Some (b, s2, e1 ++ e2)
      end
  end.

Definition gets {A : Type} (f : State -> A) : M A := fun s => Some (f s, s, []).
Definition modify (f : State -> State) : M unit := fun s => Some (tt, f s, []).
Definition emit (e : Event) : M unit := fun s => Some (tt, s, [e]).
Definition stuck {A : Type} : M A := fun _ => None.

(** ** The external helpers *)

Definition PIN_read (p : Pin) (level : bool) : M bool :=
  emit (EvPinRead p level) ;; mret level.
Definition PIN_toggle (p : Pin) : M unit := emit (EvPinToggle p).
Definition DLY_ms (ms : Z) : M unit := emit (EvDelay ms).
Definition NEO_writeColor (pixel r g b : Z) : M unit :=
  emit (EvWriteColor pixel r g b).
Definition NEO_clearPixel (pixel : Z) : M unit := emit (EvClearPixel pixel).
Definition NEO_update : M unit := emit EvUpdate.
Definition HID_sendReport (t : Template) (len : Z) : M unit :=
  bytes ← gets (buffer t); emit (EvSendReport t bytes len).

(** ** The loop body, lines 150-255 *)

(** Lines 159-170. *)
Definition check_key1 (inp : Lines) : M unit :=
  lv ← PIN_read PIN_KEY1 (key1_level inp);
  pressed ← gets key1Pressed;
  if negb lv then
    if negb (truthy pressed) then
      modify (set_key1Pressed 1) ;;
      modify (set_keyDirty 1) ;;
      modify (fun s => set_touchCount (to_uint16 (touchCount s + 1)) s)
    else mret tt
  else
    if truthy pressed then
      modify (set_key1Pressed 0) ;;
      modify (set_keyDirty 1)
    else mret tt.

(** Lines 172-183. *)
Definition check_key2 (inp : Lines) : M unit :=
  lv ← PIN_read PIN_KEY2 (key2_level inp);
  pressed ← gets key2Pressed;
  if negb lv then
    if negb (truthy pressed) then
      modify (set_key2Pressed 1) ;;
      modify (set_keyDirty 1) ;;
      modify (fun s => set_touchCount (to_uint16 (touchCount s + 1)) s)
    else mret tt
  else
    if truthy pressed then
      modify (set_key2Pressed 0) ;;
      modify (set_keyDirty 1)
    else mret tt.

(** The condition of line 185; [||] reads [PIN_ENC_SW] only when
    [PIN_KEY3] is high. *)
Definition key3_or_switch (inp : Lines) : M bool :=
  k3 ← PIN_read PIN_KEY3 (key3_level inp);
  if negb k3 then mret true
  else sw ← PIN_read PIN_ENC_SW (enc_sw_level inp); mret (negb sw).

(** Lines 185-197. *)
Definition check_key3 (inp : Lines) : M unit :=
  asserted ← key3_or_switch inp;
  pressed ← gets key3Pressed;
  if (asserted : bool) then
    if negb (truthy pressed) then
      modify (set_key3Pressed 1) ;;
      modify (set_keyDirty 1) ;;
      modify (fun s => set_touchCount (to_uint16 (touchCount s + 1)) s)
    else mret tt
  else
    if truthy pressed then
      modify (set_key3Pressed 0) ;;
      modify (set_keyDirty 1)
    else mret tt.

(** Line 208, [while(!PIN_read(PIN_ENC_A));].  [fuel] bounds the number of
    readings taken; the wait has not returned when it is used up. *)
Fixpoint wait_until_rest (fuel : nat) (reads : nat -> bool) (i : nat) : M unit :=
  match fuel with
  | O => stuck
  | S fuel' =>
      a ← PIN_read PIN_ENC_A (reads i);
      if negb a then wait_until_rest fuel' reads (S i) else mret tt
  end.

(** Lines 200-210. *)
Definition check_encoder (fuel : nat) (inp : Lines) : M unit :=
  a ← PIN_read PIN_ENC_A (enc_a_level inp);
  if negb a then
    b ← PIN_read PIN_ENC_B (enc_b_level inp);
    (if (b : bool) then modify (set_lampLight 1) else modify (set_lampLight 0)) ;;
    DLY_ms 10 ;;
    wait_until_rest fuel (enc_a_wait inp) 0%nat ;;
    modify (set_keyDirty 1)
  else mret tt.

(** One of the assignments of lines 213-218, [report[0] = touchCount]. *)
Definition store_count (t : Template) : M unit :=
  modify (fun s => set_buffer t (<[0%nat := to_uint8 (touchCount s)]> (buffer t s)) s).

(** Lines 213-218. *)
Definition patch_reports : M unit :=
  store_count DownReport1 ;;
  store_count UpReport1 ;;
  store_count DownReport2 ;;
  store_count UpReport2 ;;
  store_count DownReport3 ;;
  store_count UpReport3.

(** One of the three [if (keyNPressed)] blocks of lines 221-253. *)
Definition show_key (pixel : Z) (pressed : State -> Z) (down up : Template) : M unit :=
  p ← gets pressed;
  if truthy p then
    NEO_writeColor pixel 25 19 0 ;;
    HID_sendReport down sizeof_report
  else
    lamp ← gets lampLight;
    (if truthy lamp then NEO_writeColor pixel 15 5 0 else NEO_clearPixel pixel) ;;
    HID_sendReport up sizeof_report.

(** Lines 220-254. *)
Definition dispatch : M unit :=
  dirty ← gets keyDirty;
  if truthy dirty then
    show_key 0 key1Pressed DownReport1 UpReport1 ;;
    show_key 1 key2Pressed DownReport2 UpReport2 ;;
    show_key 2 key3Pressed DownReport3 UpReport3
  else mret tt.

(** The body of [while (1)], lines 150-255. *)
Definition loop_body (fuel : nat) (inp : Lines) : M unit :=
  modify (set_keyDirty 0) ;;
  modify (set_touchCount 0) ;;
  PIN_toggle PIN_LED ;;
  DLY_ms 10 ;;
  check_key1 inp ;;
  check_key2 inp ;;
  check_key3 inp ;;
  check_encoder fuel inp ;;
  patch_reports ;;
  dispatch ;;
  NEO_update.

(** A prefix of the endless loop: one pass per element of [inputs].  The
    result lists, pass by pass, the state at the end of the pass and the
    events of the pass. *)
Fixpoint run (fuel : nat) (inputs : list Lines) (s : State)
  : option (list (State * list Event)) :=
  match inputs with
  | [] => Some []
  | inp :: rest =>
      match loop_body fuel inp s with
      | None => None
      | Some (_, s1, evs) =>
          match run fuel rest s1 with
          | None => None
          | Some log => Some ((s1, evs) :: log)
          end
      end
  end.

(** ** Observations on states and event logs *)

Inductive Key : Type := K1 | K2 | K3.
Inductive Variant : Type := Down | Up.

Definition key_of (t : Template) : Key :=
  match t with
  | DownReport1 | UpReport1 => K1
  | DownReport2 | UpReport2 => K2
  | DownReport3 | UpReport3 => K3
  end.

Definition variant_of (t : Template) : Variant :=
  match t with
  | DownReport1 | DownReport2 | DownReport3 => Down
  | UpReport1 | UpReport2 | UpReport3 => Up
  end.

Definition Key_eqb (a b : Key) : bool :=
  match a, b with
  | K1, K1 | K2, K2 | K3, K3 => true
  | _, _ => false
  end.

Definition Variant_eqb (a b : Variant) : bool :=
  match a, b with
  | Down, Down | Up, Up => true
  | _, _ => false
  end.

(** The tracked flag of a key, and whether it counts as pressed. *)
Definition pressed_flag (k : Key) (s : State) : Z :=
  match k with
  | K1 => key1Pressed s
  | K2 => key2Pressed s
  | K3 => key3Pressed s
  end.

Definition is_pressed (k : Key) (s : State) : bool := truthy (pressed_flag k s).

(** Whether the tracked state of a key differs between two states. *)
Definition changed (k : Key) (s s' : State) : bool :=
  xorb (is_pressed k s) (is_pressed k s').

(** The number of keys whose tracked state is pressed. *)
Definition pressed_count (s : State) : Z :=
  Z.b2z (is_pressed K1 s) + Z.b2z (is_pressed K2 s) + Z.b2z (is_pressed K3 s).

(** What a cycle samples for each key: the line of key 1, of key 2, and
    for key 3 the condition of line 185. *)
Definition sampled (k : Key) (inp : Lines) : bool :=
  match k with
  | K1 => negb (key1_level inp)
  | K2 => negb (key2_level inp)
  | K3 => negb (key3_level inp) || negb (enc_sw_level inp)
  end.

(** Phase A of the encoder is asserted at line 200. *)
Definition turned (inp : Lines) : bool := negb (enc_a_level inp).

(** The HID reports of a log, in order: which array, its bytes, the length. *)
Definition sent (evs : list Event) : list (Template * list Z * Z) :=
  flat_map (fun e =>
    match e with
    | EvSendReport t bytes len => [(t, bytes, len)]
    | _ => []
    end) evs.

(** The variants of the reports of key [k] in a log, in order. *)
Definition reports_for (k : Key) (evs : list Event) : list Variant :=
  flat_map (fun e =>
    match e with
    | EvSendReport t _ _ => if Key_eqb (key_of t) k then [variant_of t] else []
    | _ => []
    end) evs.

Definition is_led_write (e : Event) : bool :=
  match e with
  | EvWriteColor _ _ _ _ | EvClearPixel _ => true
  | _ => false
  end.

(** The per-slot NeoPixel writes of a log, in order. *)
Definition led_writes (evs : list Event) : list Event := List.filter is_led_write evs.

Definition is_pin_read (e : Event) : bool :=
  match e with
  | EvPinRead _ _ => true
  | _ => false
  end.

(** Everything the cycle does to the outside, pin reads left out. *)
Definition outputs (evs : list Event) : list Event :=
  List.filter (fun e => negb (is_pin_read e)) evs.

(** The number of readings of pin [p] in a log. *)
Definition Pin_eqb (a b : Pin) : bool :=
  match a, b with
  | PIN_KEY1, PIN_KEY1 | PIN_KEY2, PIN_KEY2 | PIN_KEY3, PIN_KEY3
  | PIN_ENC_SW, PIN_ENC_SW | PIN_ENC_A, PIN_ENC_A | PIN_ENC_B, PIN_ENC_B
  | PIN_LED, PIN_LED => true
  | _, _ => false
  end.

Definition reads_of (p : Pin) (evs : list Event) : nat :=
  length (List.filter (fun e =>
    match e with
    | EvPinRead q _ => Pin_eqb p q
    | _ => false
    end) evs).

(** No two neighbours of the list are the same variant. *)
Fixpoint alternates (l : list Variant) : bool :=
  match l with
  | a :: ((b :: _) as rest) => negb (Variant_eqb a b) && alternates rest
  | _ => true
  end.

(** Over a run that starts in [s]: the reports of key [k], all of them, and
    those sent in the passes in which the tracked state of [k] changed. *)
Definition all_reports (k : Key) (log : list (State * list Event)) : list Variant :=
  flat_map (fun c => reports_for k (snd c)) log.

Fixpoint edge_reports (k : Key) (s : State) (log : list (State * list Event))
  : list Variant :=
  match log with
  | [] => []
  | (s', evs) :: rest =>
      (if changed k s s' then reports_for k evs else []) ++ edge_reports k s' rest
  end.

(** The colour command the feedback mapping prescribes for one slot. *)
Definition led_command (pixel : Z) (pressed lamp : bool) : Event :=
  if pressed then EvWriteColor pixel 25 19 0
  else if lamp then EvWriteColor pixel 15 5 0
  else EvClearPixel pixel.

(** Bytes 1..7 of every report array are those of the initialisers. *)
Definition templates_intact (s : State) : Prop :=
  forall t, drop 1 (buffer t s) = drop 1 (buffer t init_state).

(** ** One cycle in closed form *)

Definition set_flag (k : Key) (v : Z) (s : State) : State :=
  match k with
  | K1 => set_key1Pressed v s
  | K2 => set_key2Pressed v s
  | K3 => set_key3Pressed v s
  end.

(** The effect on the variables of the block that checks key [k]. *)
Definition key_step (k : Key) (inp : Lines) (s : State) : State :=
  if sampled k inp then
    if is_pressed k s then s
    else set_touchCount (to_uint16 (touchCount (set_keyDirty 1 (set_flag k 1 s)) + 1))
           (set_keyDirty 1 (set_flag k 1 s))
  else
    if is_pressed k s then set_keyDirty 1 (set_flag k 0 s) else s.

(** The effect on the variables of lines 200-210, once the wait is over. *)
Definition encoder_step (inp : Lines) (s : State) : State :=
  if turned inp then
    set_keyDirty 1 (set_lampLight (if enc_b_level inp then 1 else 0) s)
  else s.

(** The effect of lines 213-218. *)
Definition patched (s : State) : State :=
  let c := to_uint8 (touchCount s) in
  mkState
    (<[0%nat := c]> (touchDownReport1 s)) (<[0%nat := c]> (touchUpReport1 s))
    (<[0%nat := c]> (touchDownReport2 s)) (<[0%nat := c]> (touchUpReport2 s))
    (<[0%nat := c]> (touchDownReport3 s)) (<[0%nat := c]> (touchUpReport3 s))
    (touchCount s) (lampLight s) (keysChanged s) (key1Pressed s)
    (key2Pressed s) (key3Pressed s) (knobDirection s) (keyDirty s).

(** The variables at the end of a cycle that started in [s]. *)
Definition cycle_state (inp : Lines) (s : State) : State :=
  patched
    (encoder_step inp
       (key_step K3 inp
          (key_step K2 inp
             (key_step K1 inp
                (set_touchCount 0 (set_keyDirty 0 s)))))).

(** The new value of a key flag, given what was sampled. *)
Definition next_flag (a : bool) (p : Z) : Z :=
  if a then (if truthy p then p else 1) else (if truthy p then 0 else p).

(** The keys that the cycle finds newly pressed. *)
Definition new_presses (inp : Lines) (s : State) : Z :=
  Z.b2z (sampled K1 inp && negb (is_pressed K1 s))
  + Z.b2z (sampled K2 inp && negb (is_pressed K2 s))
  + Z.b2z (sampled K3 inp && negb (is_pressed K3 s)).

Definition any_edge (inp : Lines) (s : State) : bool :=
  xorb (sampled K1 inp) (is_pressed K1 s)
  || xorb (sampled K2 inp) (is_pressed K2 s)
  || xorb (sampled K3 inp) (is_pressed K3 s).

Definition key_events (inp : Lines) : list Event :=
  [EvPinToggle PIN_LED; EvDelay 10;
   EvPinRead PIN_KEY1 (key1_level inp);
   EvPinRead PIN_KEY2 (key2_level inp);
   EvPinRead PIN_KEY3 (key3_level inp)]
  ++ (if key3_level inp then [EvPinRead PIN_ENC_SW (enc_sw_level inp)] else []).

Definition encoder_events (inp : Lines) (ew : list Event) : list Event :=
  EvPinRead PIN_ENC_A (enc_a_level inp)
  :: (if enc_a_level inp then []
      else [EvPinRead PIN_ENC_B (enc_b_level inp); EvDelay 10] ++ ew).

Definition key_feedback (pixel : Z) (k : Key) (down up : Template) (s : State)
  : list Event :=
  [led_command pixel (is_pressed k s) (truthy (lampLight s));
   if is_pressed k s then EvSendReport down (buffer down s) 8
   else EvSendReport up (buffer up s) 8].

Definition dispatch_events (s : State) : list Event :=
  if truthy (keyDirty s) then
    key_feedback 0 K1 DownReport1 UpReport1 s
    ++ key_feedback 1 K2 DownReport2 UpReport2 s
    ++ key_feedback 2 K3 DownReport3 UpReport3 s
  else [].

Definition cycle_events (inp : Lines) (ew : list Event) (s' : State) : list Event :=
  key_events inp ++ encoder_events inp ew ++ dispatch_events s' ++ [EvUpdate].

(** The readings of the busy-wait alone. *)
Fixpoint wait_events (fuel : nat) (reads : nat -> bool) (i : nat)
  : option (list Event) :=
  match fuel with
  | O => None
  | S fuel' =>
      if reads i then Some [EvPinRead PIN_ENC_A true]
      else option_map (cons (EvPinRead PIN_ENC_A false))
             (wait_events fuel' reads (S i))
  end.

(** The cycle samples, for every key, the state it already tracks, and
    phase A is at rest. *)
Definition quiet (inp : Lines) (s : State) : bool :=
  Bool.eqb (sampled K1 inp) (is_pressed K1 s)
  && Bool.eqb (sampled K2 inp) (is_pressed K2 s)
  && Bool.eqb (sampled K3 inp) (is_pressed K3 s)
  && enc_a_level inp.

(** The same readings with other levels on the two lines of key 3. *)
Definition with_key3_lines (k3 sw : bool) (inp : Lines) : Lines :=
  mkLines (key1_level inp) (key2_level inp) k3 sw
    (enc_a_level inp) (enc_b_level inp) (enc_a_wait inp).

(** What the busy-wait has to deliver for the cycle to go on. *)
Definition wait_result (fuel : nat) (inp : Lines) : option (list Event) :=
  if enc_a_level inp then Some []
  else wait_events fuel (enc_a_wait inp) 0%nat.

(** Whether the busy-wait gets to see phase A at rest within [fuel]
    readings (it is not entered when phase A is at rest at line 200). *)
Definition finishes (fuel : nat) (inp : Lines) : bool :=
  enc_a_level inp || existsb (enc_a_wait inp) (seq 0 fuel).

(** ** Sample inputs *)

Definition rest_level : nat -> bool := fun _ => true.

(** Nothing touched. *)
Definition idle : Lines := mkLines true true true true true true rest_level.
(** Key 1 held, the rest untouched. *)
Definition hold1 : Lines := mkLines false true true true true true rest_level.
(** Key 2 held, the rest untouched. *)
Definition hold2 : Lines := mkLines true false true true true true rest_level.
(** Keys 1 and 2 held. *)
Definition hold12 : Lines := mkLines false false true true true true rest_level.
(** All three keys held. *)
Definition hold123 : Lines := mkLines false false false true true true rest_level.
(** The encoder push-button held instead of key 3. *)
Definition hold_switch : Lines := mkLines true true true false true true rest_level.
(** One encoder detent, phase B high, phase A back at rest after two more
    readings. *)
Definition detent : Lines :=
  mkLines true true true true false true (fun i => (2 <=? i)%nat).

(** ** Start-up, lines 66-146 *)

(** Calls made before the loop is entered. *)
Inductive SetupEvent : Type :=
  | SeNeoInit
  | SePinRead (p : Pin) (level : bool)
  | SeNeoLatch
  | SeNeoSendByte (b : Z)
  | SeBootNow
  | SeClkConfig
  | SeHidInit
  | SeDelay (ms : Z)
  | SePinLow (p : Pin)
  | SeNeoClearAll.

(** Lines 73-74, [for (i = 9; i; i--) NEO_sendByte(127);] with [i] an
    [uint8_t], from a given value of [i]; [fuel] bounds the iterations. *)
Fixpoint boot_fill (fuel : nat) (i : Z) : option (list SetupEvent) :=
  match fuel with
  | O => None
  | S fuel' =>
      if truthy i then
        option_map (cons (SeNeoSendByte 127)) (boot_fill fuel' (to_uint8 (i - 1)))
      else Some []
  end.

(** Lines 68-146.  The result is the calls made and, when the loop is
    reached, the variables it starts with.  [BOOT_now] is external:
    [boot_returns] says whether it hands control back.  [fuel] bounds the
    iterations of the fill loop. *)
Definition startup (fuel : nat) (key1_at_power_on boot_returns : bool)
  : option (list SetupEvent * option State) :=
  let setup :=
    [SeClkConfig; SeHidInit; SeDelay 10; SePinLow PIN_LED; SeNeoClearAll] in
  let head := [SeNeoInit; SePinRead PIN_KEY1 key1_at_power_on] in
  if negb key1_at_power_on then
    match boot_fill fuel 9 with
    | None => None
    | Some fill =>
        if boot_returns then
          Some (head ++ [SeNeoLatch] ++ fill ++ [SeBootNow] ++ setup, Some init_state)
        else
          Some (head ++ [SeNeoLatch] ++ fill ++ [SeBootNow], None)
    end
  else Some (head ++ setup, Some init_state).

(** ** Further observations *)

(** A C flag that holds 0 or 1. *)
Definition is_bit (z : Z) : Prop := z = 0 \/ z = 1.

(** What holds of the variables between cycles. *)
Definition well_formed (s : State) : Prop :=
  is_bit (key1Pressed s) /\ is_bit (key2Pressed s) /\ is_bit (key3Pressed s)
  /\ is_bit (lampLight s) /\ is_bit (keyDirty s)
  /\ 0 <= touchCount s <= 3
  /\ templates_intact s.

(** The contact identifier of a key. *)
Definition contact_id (k : Key) : Z :=
  match k with
  | K1 => 1
  | K2 => 2
  | K3 => 3
  end.

(** The state a run ends in. *)
Definition final_state (s : State) (log : list (State * list Event)) : State :=
  fold_left (fun _ c => fst c) log s.

(** The direction the encoder was last seen to turn in, as [lampLight]
    keeps it: 1 for phase B high, 0 for phase B low. *)
Definition last_direction (inputs : list Lines) (lamp : Z) : Z :=
  fold_left
    (fun l inp => if turned inp then (if enc_b_level inp then 1 else 0) else l)
    inputs lamp.

(** The same key samples as [inp], with phase A at rest. *)
Definition same_keys (inp inp2 : Lines) : Prop :=
  (forall k, sampled k inp2 = sampled k inp) /\ enc_a_level inp2 = true.

(** The LED slot of a key. *)
Definition pixel_of (k : Key) : Z :=
  match k with
  | K1 => 0
  | K2 => 1
  | K3 => 2
  end.

Definition writes_pixel (pixel : Z) (e : Event) : bool :=
  match e with
  | EvWriteColor p _ _ _ | EvClearPixel p => p =? pixel
  | _ => false
  end.

(** The command a slot was last given in a log, [acc] if it was given none. *)
Definition last_led (pixel : Z) (acc : option Event) (evs : list Event)
  : option Event :=
  fold_left (fun a e => if writes_pixel pixel e then Some e else a) evs acc.

(** The events of a run, cycle after cycle. *)
Definition all_events (log : list (State * list Event)) : list Event :=
  flat_map snd log.

(** ** Basic facts *)

(** Unfold the monad and the external helpers down to explicit results. *)
Ltac unfold_calls :=
  cbv [PIN_read PIN_toggle DLY_ms NEO_writeColor NEO_clearPixel NEO_update
       HID_sendReport sizeof_report mbind M_bind mret M_ret gets modify emit
       negb orb app].

(** The three feedback blocks differ in pixel, flag and arrays only. *)
Ltac show_key_cases p :=
  unfold show_key, key_feedback, led_command, is_pressed, pressed_flag;
  unfold_calls;
  match goal with
  | s : State |- _ => destruct (truthy (p s)), (truthy (lampLight s)); reflexivity
  end.

Lemma wait_until_rest_events fuel reads : forall i s,
  wait_until_rest fuel reads i s =
  option_map (fun ew => (tt, s, ew)) (wait_events fuel reads i).
Proof.
  induction fuel as [|fuel IH]; intros i s; [reflexivity|].
  cbn [wait_until_rest wait_events].
  unfold PIN_read, emit, mbind, M_bind, mret, M_ret.
  destruct (reads i); cbn; [reflexivity|].
  rewrite IH. destruct (wait_events fuel reads (S i)); reflexivity.
Qed.

Lemma bind_run {A B} (m : M A) (f : A -> M B) s :
  (m ≫= f) s =
  match m s with
  | None => None
  | Some (a, s1, e1) =>
      match f a s1 with
      | None => None
      | Some (b, s2, e2) => Some (b, s2, e1 ++ e2)
      end
  end.
Proof. reflexivity. Qed.

Lemma check_key1_run inp s :
  check_key1 inp s = Some (tt, key_step K1 inp s, [EvPinRead PIN_KEY1 (key1_level inp)]).
Proof.
  unfold check_key1, key_step, is_pressed, sampled, pressed_flag, set_flag.
  destruct (key1_level inp), (truthy (key1Pressed s)) eqn:E;
    unfold_calls; rewrite E; reflexivity.
Qed.

Lemma check_key2_run inp s :
  check_key2 inp s = Some (tt, key_step K2 inp s, [EvPinRead PIN_KEY2 (key2_level inp)]).
Proof.
  unfold check_key2, key_step, is_pressed, sampled, pressed_flag, set_flag.
  destruct (key2_level inp), (truthy (key2Pressed s)) eqn:E;
    unfold_calls; rewrite E; reflexivity.
Qed.

Lemma check_key3_run inp s :
  check_key3 inp s =
  Some (tt, key_step K3 inp s,
        EvPinRead PIN_KEY3 (key3_level inp)
        :: (if key3_level inp then [EvPinRead PIN_ENC_SW (enc_sw_level inp)] else [])).
Proof.
  unfold check_key3, key3_or_switch, key_step, is_pressed, sampled, pressed_flag, set_flag.
  destruct (key3_level inp), (enc_sw_level inp), (truthy (key3Pressed s)) eqn:E;
    unfold_calls; rewrite E; reflexivity.
Qed.

Lemma check_encoder_run fuel inp s :
  check_encoder fuel inp s =
  option_map (fun ew => (tt, encoder_step inp s, encoder_events inp ew))
    (wait_result fuel inp).
Proof.
  unfold wait_result, check_encoder, encoder_step, encoder_events, turned.
  destruct (enc_a_level inp); [reflexivity|].
  destruct (enc_b_level inp);
    cbv [PIN_read DLY_ms mbind M_bind mret M_ret gets modify emit negb];
    rewrite wait_until_rest_events;
    destruct (wait_events fuel (enc_a_wait inp) 0%nat);
    cbn [option_map app]; rewrite ?app_nil_r; reflexivity.
Qed.

Lemma patch_reports_run s : patch_reports s = Some (tt, patched s, []).
Proof. reflexivity. Qed.

Lemma show_key1_run s :
  show_key 0 key1Pressed DownReport1 UpReport1 s =
  Some (tt, s, key_feedback 0 K1 DownReport1 UpReport1 s).
Proof.
  show_key_cases key1Pressed.
Qed.

Lemma show_key2_run s :
  show_key 1 key2Pressed DownReport2 UpReport2 s =
  Some (tt, s, key_feedback 1 K2 DownReport2 UpReport2 s).
Proof.
  show_key_cases key2Pressed.
Qed.

Lemma show_key3_run s :
  show_key 2 key3Pressed DownReport3 UpReport3 s =
  Some (tt, s, key_feedback 2 K3 DownReport3 UpReport3 s).
Proof.
  show_key_cases key3Pressed.
Qed.

Lemma dispatch_run s : dispatch s = Some (tt, s, dispatch_events s).
Proof.
  unfold dispatch, dispatch_events.
  rewrite bind_run. cbv [gets]. cbv beta iota.
  destruct (truthy (keyDirty s)); [|reflexivity].
  rewrite bind_run, show_key1_run. cbv beta iota.
  rewrite bind_run, show_key2_run. cbv beta iota.
  rewrite show_key3_run. reflexivity.
Qed.

Lemma loop_body_eq fuel inp s :
  loop_body fuel inp s =
  option_map
    (fun ew => (tt, cycle_state inp s, cycle_events inp ew (cycle_state inp s)))
    (wait_result fuel inp).
Proof.
  unfold loop_body, cycle_state, cycle_events, key_events.
  do 4 (rewrite bind_run; cbv [modify PIN_toggle DLY_ms emit]; cbv beta iota).
  rewrite bind_run, check_key1_run. cbv beta iota.
  rewrite bind_run, check_key2_run. cbv beta iota.
  rewrite bind_run, check_key3_run. cbv beta iota.
  rewrite bind_run, check_encoder_run.
  destruct (wait_result fuel inp) as [ew|]; [|reflexivity].
  cbn [option_map].
  rewrite bind_run, patch_reports_run. cbv beta iota.
  rewrite bind_run, dispatch_run. cbv beta iota.
  cbv [NEO_update emit].
  cbn [app]. rewrite <- ?app_assoc. reflexivity.
Qed.

(** *** How each step acts on each variable *)

Lemma truthy_next_flag a p : truthy (next_flag a p) = a.
Proof. unfold next_flag. destruct a, (truthy p) eqn:E; try rewrite E; reflexivity. Qed.

Lemma key_step_flag k k' inp s :
  pressed_flag k' (key_step k inp s) =
  if Key_eqb k k' then next_flag (sampled k inp) (pressed_flag k s)
  else pressed_flag k' s.
Proof.
  unfold key_step, next_flag, is_pressed.
  destruct (sampled k inp), (truthy (pressed_flag k s)); destruct k, k'; reflexivity.
Qed.

Lemma key_step_pressed k k' inp s :
  is_pressed k' (key_step k inp s) =
  if Key_eqb k k' then sampled k inp else is_pressed k' s.
Proof.
  unfold is_pressed at 1. rewrite key_step_flag.
  destruct (Key_eqb k k'); [apply truthy_next_flag | reflexivity].
Qed.

Lemma key_step_touchCount k inp s :
  touchCount (key_step k inp s) =
  if sampled k inp && negb (is_pressed k s) then to_uint16 (touchCount s + 1)
  else touchCount s.
Proof.
  unfold key_step.
  destruct (sampled k inp), (is_pressed k s); destruct k; reflexivity.
Qed.

Lemma key_step_keyDirty k inp s :
  keyDirty (key_step k inp s) =
  if xorb (sampled k inp) (is_pressed k s) then 1 else keyDirty s.
Proof.
  unfold key_step.
  destruct (sampled k inp), (is_pressed k s); destruct k; reflexivity.
Qed.

Lemma key_step_lampLight k inp s : lampLight (key_step k inp s) = lampLight s.
Proof.
  unfold key_step.
  destruct (sampled k inp), (is_pressed k s); destruct k; reflexivity.
Qed.

Lemma key_step_buffer k inp s t : buffer t (key_step k inp s) = buffer t s.
Proof.
  unfold key_step.
  destruct (sampled k inp), (is_pressed k s); destruct k, t; reflexivity.
Qed.

Lemma encoder_step_flag k inp s :
  pressed_flag k (encoder_step inp s) = pressed_flag k s.
Proof. unfold encoder_step. destruct (turned inp), k; reflexivity. Qed.

Lemma encoder_step_touchCount inp s : touchCount (encoder_step inp s) = touchCount s.
Proof. unfold encoder_step. destruct (turned inp); reflexivity. Qed.

Lemma encoder_step_buffer inp s t : buffer t (encoder_step inp s) = buffer t s.
Proof. unfold encoder_step. destruct (turned inp), t; reflexivity. Qed.

Lemma patched_buffer s t :
  buffer t (patched s) = <[0%nat := to_uint8 (touchCount s)]> (buffer t s).
Proof. destruct t; reflexivity. Qed.

(** *** The variables at the end of a cycle *)

Lemma cycle_flag k inp s :
  pressed_flag k (cycle_state inp s) = next_flag (sampled k inp) (pressed_flag k s).
Proof.
  unfold cycle_state.
  change (pressed_flag k (patched ?x)) with (pressed_flag k x).
  rewrite encoder_step_flag, !key_step_flag.
  destruct k; reflexivity.
Qed.

Lemma cycle_pressed k inp s : is_pressed k (cycle_state inp s) = sampled k inp.
Proof. unfold is_pressed. rewrite cycle_flag. apply truthy_next_flag. Qed.

Lemma cycle_touchCount inp s : touchCount (cycle_state inp s) = new_presses inp s.
Proof.
  unfold cycle_state, new_presses.
  change (touchCount (patched ?x)) with (touchCount x).
  rewrite encoder_step_touchCount, !key_step_touchCount, !key_step_pressed.
  cbn [Key_eqb].
  change (is_pressed ?k (set_touchCount 0 (set_keyDirty 0 s))) with (is_pressed k s).
  change (touchCount (set_touchCount 0 (set_keyDirty 0 s))) with 0.
  destruct (sampled K1 inp), (is_pressed K1 s), (sampled K2 inp), (is_pressed K2 s),
    (sampled K3 inp), (is_pressed K3 s); reflexivity.
Qed.

Lemma cycle_keyDirty inp s :
  keyDirty (cycle_state inp s) = if turned inp || any_edge inp s then 1 else 0.
Proof.
  unfold cycle_state, any_edge.
  change (keyDirty (patched ?x)) with (keyDirty x).
  unfold encoder_step. destruct (turned inp); [reflexivity|].
  rewrite !key_step_keyDirty, !key_step_pressed. cbn [Key_eqb orb].
  change (is_pressed ?k (set_touchCount 0 (set_keyDirty 0 s))) with (is_pressed k s).
  change (keyDirty (set_touchCount 0 (set_keyDirty 0 s))) with 0.
  destruct (xorb (sampled K1 inp) (is_pressed K1 s)),
    (xorb (sampled K2 inp) (is_pressed K2 s)),
    (xorb (sampled K3 inp) (is_pressed K3 s)); reflexivity.
Qed.

Lemma cycle_lampLight inp s :
  lampLight (cycle_state inp s) =
  if turned inp then (if enc_b_level inp then 1 else 0) else lampLight s.
Proof.
  unfold cycle_state.
  change (lampLight (patched ?x)) with (lampLight x).
  unfold encoder_step. destruct (turned inp); [reflexivity|].
  rewrite !key_step_lampLight. reflexivity.
Qed.

Lemma new_presses_range inp s : 0 <= new_presses inp s <= 3.
Proof.
  unfold new_presses.
  destruct (sampled K1 inp && negb (is_pressed K1 s)),
    (sampled K2 inp && negb (is_pressed K2 s)),
    (sampled K3 inp && negb (is_pressed K3 s)); cbn; lia.
Qed.

Lemma cycle_buffer t inp s :
  buffer t (cycle_state inp s) = <[0%nat := new_presses inp s]> (buffer t s).
Proof.
  rewrite <- cycle_touchCount at 1.
  unfold cycle_state at 1. rewrite patched_buffer.
  change (touchCount (encoder_step inp ?x)) with (touchCount (patched (encoder_step inp x))).
  fold (cycle_state inp s).
  rewrite encoder_step_buffer, !key_step_buffer.
  replace (buffer t (set_touchCount 0 (set_keyDirty 0 s))) with (buffer t s)
    by (destruct t; reflexivity).
  rewrite cycle_touchCount. unfold to_uint8.
  rewrite Z.mod_small by (pose proof (new_presses_range inp s); lia).
  reflexivity.
Qed.

(** *** The busy-wait *)

Lemma wait_events_Some fuel reads : forall i ew,
  wait_events fuel reads i = Some ew <->
  exists n, (n < fuel)%nat
    /\ (forall j, (j < n)%nat -> reads (i + j)%nat = false)
    /\ reads (i + n)%nat = true
    /\ ew = repeat (EvPinRead PIN_ENC_A false) n ++ [EvPinRead PIN_ENC_A true].
Proof.
  induction fuel as [|fuel IH]; intros i ew; cbn [wait_events].
  - split; [discriminate | intros (n & Hn & _); lia].
  - destruct (reads i) eqn:Ri.
    + split.
      * intros [= <-]. exists 0%nat. rewrite Nat.add_0_r.
        split; [lia|]. split; [intros j Hj; lia|]. split; [assumption|reflexivity].
      * intros (n & Hn & Hlow & Hhigh & ->).
        destruct n as [|n]; [reflexivity|].
        specialize (Hlow 0%nat ltac:(lia)). rewrite Nat.add_0_r in Hlow. congruence.
    + destruct (wait_events fuel reads (S i)) as [ew'|] eqn:W; cbn [option_map].
      * apply IH in W as (n & Hn & Hlow & Hhigh & ->). split.
        -- intros [= <-]. exists (S n).
           split; [lia|]. split; [|split; [|reflexivity]].
           ++ intros [|j] Hj; [rewrite Nat.add_0_r; assumption|].
              rewrite Nat.add_succ_r. apply (Hlow j). lia.
           ++ rewrite Nat.add_succ_r. assumption.
        -- intros (m & Hm & Hlow' & Hhigh' & ->).
           assert (m = S n) as ->; [|reflexivity].
           destruct (Nat.lt_trichotomy m (S n)) as [Hlt|[Heq|Hgt]]; [|assumption|].
           ++ destruct m as [|m]; [rewrite Nat.add_0_r in Hhigh'; congruence|].
              specialize (Hlow m ltac:(lia)).
              rewrite Nat.add_succ_r in Hhigh'. cbn in Hlow. congruence.
           ++ specialize (Hlow' (S n) Hgt).
              rewrite Nat.add_succ_r in Hlow'. cbn in Hhigh. congruence.
      * split; [discriminate|].
        intros (n & Hn & Hlow & Hhigh & ->).
        destruct n as [|n]; [rewrite Nat.add_0_r in Hhigh; congruence|].
        assert (W' : wait_events fuel reads (S i)
                     = Some (repeat (EvPinRead PIN_ENC_A false) n
                             ++ [EvPinRead PIN_ENC_A true])).
        { apply IH. exists n. split; [lia|]. split; [|split; [|reflexivity]].
          - intros j Hj. specialize (Hlow (S j) ltac:(lia)).
            rewrite Nat.add_succ_r in Hlow. exact Hlow.
          - rewrite Nat.add_succ_r in Hhigh. exact Hhigh. }
        congruence.
Qed.

Lemma wait_events_None fuel reads : forall i,
  wait_events fuel reads i = None <->
  forall j, (j < fuel)%nat -> reads (i + j)%nat = false.
Proof.
  induction fuel as [|fuel IH]; intros i; cbn [wait_events].
  - split; [intros _ j Hj; lia | reflexivity].
  - destruct (reads i) eqn:Ri.
    + split; [discriminate|]. intros H.
      specialize (H 0%nat ltac:(lia)). rewrite Nat.add_0_r in H. congruence.
    + destruct (wait_events fuel reads (S i)) as [ew'|] eqn:W; cbn [option_map].
      * split; [discriminate|]. intros H.
        assert (W' : wait_events fuel reads (S i) = None).
        { apply IH. intros j Hj. specialize (H (S j) ltac:(lia)).
          rewrite Nat.add_succ_r in H. exact H. }
        congruence.
      * split; [|reflexivity]. intros _ [|j] Hj.
        -- rewrite Nat.add_0_r. assumption.
        -- rewrite Nat.add_succ_r. apply (proj1 (IH (S i)) W j). lia.
Qed.

(** *** What a finished cycle looks like *)

Lemma loop_body_inv fuel inp s u s' evs :
  loop_body fuel inp s = Some (u, s', evs) ->
  s' = cycle_state inp s /\
  exists ew, wait_result fuel inp = Some ew /\ evs = cycle_events inp ew s'.
Proof.
  rewrite loop_body_eq. destruct (wait_result fuel inp) as [ew|]; [|discriminate].
  cbn [option_map]. intros [= _ <- <-]. split; [reflexivity|].
  exists ew. split; reflexivity.
Qed.

Lemma loop_body_at_rest fuel inp s :
  enc_a_level inp = true ->
  loop_body fuel inp s =
  Some (tt, cycle_state inp s, cycle_events inp [] (cycle_state inp s)).
Proof. intros Ha. rewrite loop_body_eq. unfold wait_result. rewrite Ha. reflexivity. Qed.

Lemma run_cons fuel inp rest s log :
  run fuel (inp :: rest) s = Some log ->
  exists evs log',
    loop_body fuel inp s = Some (tt, cycle_state inp s, evs)
    /\ run fuel rest (cycle_state inp s) = Some log'
    /\ log = (cycle_state inp s, evs) :: log'.
Proof.
  cbn [run]. destruct (loop_body fuel inp s) as [[[u s1] evs]|] eqn:L; [|discriminate].
  destruct (loop_body_inv _ _ _ _ _ _ L) as [-> _]. destruct u.
  destruct (run fuel rest (cycle_state inp s)) as [log'|]; [|discriminate].
  intros [= <-]. exists evs, log'. repeat split; reflexivity.
Qed.

(** *** Reading off an event log *)

Lemma sent_app a b : sent (a ++ b) = sent a ++ sent b.
Proof. apply flat_map_app. Qed.

Lemma reports_for_app k a b : reports_for k (a ++ b) = reports_for k a ++ reports_for k b.
Proof. apply flat_map_app. Qed.

Lemma led_writes_app a b : led_writes (a ++ b) = led_writes a ++ led_writes b.
Proof. apply List.filter_app. Qed.

Lemma outputs_app a b : outputs (a ++ b) = outputs a ++ outputs b.
Proof. apply List.filter_app. Qed.

Lemma wait_result_reads fuel inp ew :
  wait_result fuel inp = Some ew -> Forall (fun e => is_pin_read e = true) ew.
Proof.
  unfold wait_result. destruct (enc_a_level inp).
  - intros [= <-]. constructor.
  - intros W. apply wait_events_Some in W as (n & _ & _ & _ & ->).
    apply Forall_app. split; [|repeat constructor].
    clear. induction n; cbn; constructor; auto.
Qed.

Lemma reads_silent ew :
  Forall (fun e => is_pin_read e = true) ew ->
  sent ew = [] /\ led_writes ew = [] /\ outputs ew = []
  /\ forall k, reports_for k ew = [].
Proof.
  induction 1 as [|e ew He _ (IH1 & IH2 & IH3 & IH4)]; [repeat split|].
  destruct e; try discriminate. cbn. repeat split; auto.
Qed.

Lemma sent_cycle_events fuel inp ew s' :
  wait_result fuel inp = Some ew ->
  sent (cycle_events inp ew s') = sent (dispatch_events s').
Proof.
  intros W. apply wait_result_reads, reads_silent in W as (Hs & _).
  unfold cycle_events, key_events, encoder_events, sent in *.
  rewrite !flat_map_app.
  destruct (key3_level inp), (enc_a_level inp); cbn [flat_map app];
    rewrite ?flat_map_app, ?Hs, ?app_nil_r; reflexivity.
Qed.

Lemma reports_for_cycle_events fuel inp ew s' k :
  wait_result fuel inp = Some ew ->
  reports_for k (cycle_events inp ew s') = reports_for k (dispatch_events s').
Proof.
  intros W. apply wait_result_reads, reads_silent in W as (_ & _ & _ & Hr).
  specialize (Hr k).
  unfold cycle_events, key_events, encoder_events, reports_for in *.
  rewrite !flat_map_app.
  destruct (key3_level inp), (enc_a_level inp); cbn [flat_map app];
    rewrite ?flat_map_app, ?Hr, ?app_nil_r; reflexivity.
Qed.

Lemma led_writes_cycle_events fuel inp ew s' :
  wait_result fuel inp = Some ew ->
  led_writes (cycle_events inp ew s') = led_writes (dispatch_events s').
Proof.
  intros W. apply wait_result_reads, reads_silent in W as (_ & Hl & _).
  unfold cycle_events, key_events, encoder_events, led_writes in *.
  rewrite !List.filter_app.
  destruct (key3_level inp), (enc_a_level inp);
    cbn [List.filter app is_led_write];
    rewrite ?List.filter_app, ?Hl, ?app_nil_r; reflexivity.
Qed.

Lemma outputs_cycle_events fuel inp ew s' :
  wait_result fuel inp = Some ew ->
  outputs (cycle_events inp ew s') =
  [EvPinToggle PIN_LED; EvDelay 10]
  ++ (if enc_a_level inp then [] else [EvDelay 10])
  ++ dispatch_events s' ++ [EvUpdate].
Proof.
  intros W. apply wait_result_reads, reads_silent in W as (_ & _ & Ho & _).
  assert (Hd : outputs (dispatch_events s') = dispatch_events s').
  { unfold dispatch_events, key_feedback, led_command.
    destruct (truthy (keyDirty s')); [|reflexivity].
    destruct (is_pressed K1 s'), (is_pressed K2 s'), (is_pressed K3 s'),
      (truthy (lampLight s')); reflexivity. }
  unfold cycle_events, key_events, encoder_events, outputs in *.
  rewrite !List.filter_app, Hd.
  destruct (key3_level inp), (enc_a_level inp);
    cbn [List.filter app is_pin_read negb];
    rewrite ?List.filter_app, ?Ho; reflexivity.
Qed.

Lemma sent_dispatch_events s :
  sent (dispatch_events s) =
  if truthy (keyDirty s) then
    [ (if is_pressed K1 s then DownReport1 else UpReport1,
       buffer (if is_pressed K1 s then DownReport1 else UpReport1) s, 8);
      (if is_pressed K2 s then DownReport2 else UpReport2,
       buffer (if is_pressed K2 s then DownReport2 else UpReport2) s, 8);
      (if is_pressed K3 s then DownReport3 else UpReport3,
       buffer (if is_pressed K3 s then DownReport3 else UpReport3) s, 8) ]
  else [].
Proof.
  unfold dispatch_events, key_feedback, led_command.
  destruct (truthy (keyDirty s)); [|reflexivity].
  destruct (is_pressed K1 s), (is_pressed K2 s), (is_pressed K3 s),
    (truthy (lampLight s)); reflexivity.
Qed.

Lemma reports_for_dispatch_events k s :
  reports_for k (dispatch_events s) =
  if truthy (keyDirty s) then [if is_pressed k s then Down else Up] else [].
Proof.
  unfold dispatch_events, key_feedback, led_command.
  destruct (truthy (keyDirty s)); [|reflexivity].
  destruct k, (is_pressed K1 s), (is_pressed K2 s), (is_pressed K3 s),
    (truthy (lampLight s)); reflexivity.
Qed.

Lemma led_writes_dispatch_events s :
  led_writes (dispatch_events s) =
  if truthy (keyDirty s) then
    [ led_command 0 (is_pressed K1 s) (truthy (lampLight s));
      led_command 1 (is_pressed K2 s) (truthy (lampLight s));
      led_command 2 (is_pressed K3 s) (truthy (lampLight s)) ]
  else [].
Proof.
  unfold dispatch_events, key_feedback, led_command.
  destruct (truthy (keyDirty s)); [|reflexivity].
  destruct (is_pressed K1 s), (is_pressed K2 s), (is_pressed K3 s),
    (truthy (lampLight s)); reflexivity.
Qed.

Lemma In_sent t bytes len evs :
  In (EvSendReport t bytes len) evs <-> In (t, bytes, len) (sent evs).
Proof.
  unfold sent. rewrite in_flat_map. split.
  - intros H. exists (EvSendReport t bytes len). split; [assumption | left; reflexivity].
  - intros (e & He & Hin). destruct e; cbn in Hin; try contradiction.
    destruct Hin as [[= -> -> ->]|[]]. assumption.
Qed.

Lemma changed_cycle k inp s :
  changed k s (cycle_state inp s) = xorb (sampled k inp) (is_pressed k s).
Proof. unfold changed. rewrite cycle_pressed. apply xorb_comm. Qed.

Lemma dirty_cycle inp s :
  truthy (keyDirty (cycle_state inp s)) = turned inp || any_edge inp s.
Proof. rewrite cycle_keyDirty. destruct (turned inp || any_edge inp s); reflexivity. Qed.

Lemma quiet_cycle inp s :
  quiet inp s = true ->
  enc_a_level inp = true
  /\ keyDirty (cycle_state inp s) = 0
  /\ forall k, is_pressed k (cycle_state inp s) = is_pressed k s.
Proof.
  unfold quiet. rewrite !andb_true_iff.
  intros [[[H1 H2] H3] Ha].
  apply eqb_prop in H1, H2, H3.
  split; [assumption|]. split.
  - rewrite cycle_keyDirty. unfold turned, any_edge.
    rewrite Ha, H1, H2, H3, !xorb_nilpotent. reflexivity.
  - intros k. rewrite cycle_pressed. destruct k; assumption.
Qed.

Lemma cycle_reports fuel inp s s' evs k :
  loop_body fuel inp s = Some (tt, s', evs) ->
  reports_for k evs
  = if truthy (keyDirty s') then [if is_pressed k s' then Down else Up] else [].
Proof.
  intros L. apply loop_body_inv in L as [-> (ew & W & ->)].
  rewrite (reports_for_cycle_events fuel) by assumption.
  apply reports_for_dispatch_events.
Qed.

Lemma changed_is_dirty k inp s :
  changed k s (cycle_state inp s) = true ->
  truthy (keyDirty (cycle_state inp s)) = true.
Proof.
  rewrite changed_cycle, dirty_cycle. unfold any_edge. intros C.
  destruct k; rewrite C; rewrite ?orb_true_r; reflexivity.
Qed.

Lemma alternates_cons2 a b l :
  alternates (a :: b :: l) = negb (Variant_eqb a b) && alternates (b :: l).
Proof. reflexivity. Qed.

Lemma reads_of_app p a b : reads_of p (a ++ b) = (reads_of p a + reads_of p b)%nat.
Proof. unfold reads_of. rewrite List.filter_app. apply length_app. Qed.

Lemma reads_of_repeat_A lv n :
  reads_of PIN_ENC_B (repeat (EvPinRead PIN_ENC_A lv) n) = 0%nat.
Proof. induction n; [reflexivity | exact IHn]. Qed.

Lemma reads_of_B_dispatch s : reads_of PIN_ENC_B (dispatch_events s) = 0%nat.
Proof.
  unfold dispatch_events, key_feedback, led_command.
  destruct (truthy (keyDirty s)); [|reflexivity].
  destruct (is_pressed K1 s), (is_pressed K2 s), (is_pressed K3 s),
    (truthy (lampLight s)); reflexivity.
Qed.

Lemma reads_of_B_keys inp : reads_of PIN_ENC_B (key_events inp) = 0%nat.
Proof. unfold key_events. destruct (key3_level inp); reflexivity. Qed.

Lemma cycle_state_key3_lines k3 sw inp s :
  negb k3 || negb sw = sampled K3 inp ->
  cycle_state (with_key3_lines k3 sw inp) s = cycle_state inp s.
Proof.
  intros H. unfold cycle_state, encoder_step, key_step.
  change (sampled K1 (with_key3_lines k3 sw inp)) with (sampled K1 inp).
  change (sampled K2 (with_key3_lines k3 sw inp)) with (sampled K2 inp).
  change (sampled K3 (with_key3_lines k3 sw inp)) with (negb k3 || negb sw).
  rewrite H. reflexivity.
Qed.

Lemma intact_store s t c :
  templates_intact s ->
  <[0%nat := c]> (buffer t s) = c :: drop 1 (buffer t init_state).
Proof.
  intros H. specialize (H t).
  destruct (buffer t s) as [|x l]; [destruct t; discriminate|].
  cbn in H |- *. change (drop 0 l) with l in H. congruence.
Qed.

Lemma cycle_tail t inp s :
  drop 1 (buffer t (cycle_state inp s)) = drop 1 (buffer t s)
  /\ length (buffer t (cycle_state inp s)) = length (buffer t s).
Proof.
  rewrite cycle_buffer. split.
  - apply drop_insert_lt. lia.
  - apply length_insert.
Qed.

Lemma finishes_wait fuel inp :
  finishes fuel inp = true <-> exists ew, wait_result fuel inp = Some ew.
Proof.
  unfold finishes, wait_result. destruct (enc_a_level inp); cbn [orb].
  - split; [intros _; exists []; reflexivity | reflexivity].
  - rewrite existsb_exists. split.
    + intros (j & Hj & Hhigh). apply in_seq in Hj.
      destruct (wait_events fuel (enc_a_wait inp) 0%nat) as [ew|] eqn:W;
        [exists ew; reflexivity|].
      pose proof (proj1 (wait_events_None _ _ _) W j ltac:(lia)) as Hlow.
      cbn [Nat.add] in Hlow. congruence.
    + intros (ew & W). apply wait_events_Some in W as (n & Hn & _ & Hhigh & _).
      exists n. split; [apply in_seq; lia | exact Hhigh].
Qed.

Lemma loop_body_finishes fuel inp s :
  finishes fuel inp = true ->
  exists evs, loop_body fuel inp s = Some (tt, cycle_state inp s, evs).
Proof.
  intros F. apply finishes_wait in F as (ew & W).
  exists (cycle_events inp ew (cycle_state inp s)).
  rewrite loop_body_eq, W. reflexivity.
Qed.

Lemma loop_body_finished fuel inp s u s' evs :
  loop_body fuel inp s = Some (u, s', evs) -> finishes fuel inp = true.
Proof.
  intros L. apply loop_body_inv in L as (_ & ew & W & _).
  apply finishes_wait. exists ew. exact W.
Qed.

Lemma run_finishes fuel inputs : forall s,
  Forall (fun inp => finishes fuel inp = true) inputs ->
  exists log, run fuel inputs s = Some log /\ length log = length inputs.
Proof.
  induction inputs as [|inp rest IH]; intros s F.
  - exists []. split; reflexivity.
  - inversion F as [|? ? Finp Frest]; subst.
    destruct (loop_body_finishes fuel inp s Finp) as (evs & L).
    destruct (IH (cycle_state inp s) Frest) as (log & R & Hlen).
    exists ((cycle_state inp s, evs) :: log). cbn [run]. rewrite L, R.
    split; [reflexivity | cbn; congruence].
Qed.

(** ** Properties of the polling loop *)

(** C1 (the code departs from the claim).  [touchCount] is meant to be the
    number of keys currently pressed, held keys included, and byte 0 of
    every report of the cycle to carry it.  With key 1 held since the
    cycle before and key 2 pressed now, two keys are pressed at the end of
    the cycle, yet [touchCount] is 1 and the three reports of the cycle
    carry 1 in byte 0: line 151 clears the count and lines 163, 176, 190
    count a key only in the cycle in which it goes down. *)
Theorem C1_touch_count_misses_held_key :
  exists s1 e1 s2 e2,
    run 0 [hold1; hold12] init_state = Some [(s1, e1); (s2, e2)]
    /\ is_pressed K1 s2 = true /\ is_pressed K2 s2 = true
    /\ pressed_count s2 = 2
    /\ touchCount s2 = 1
    /\ sent e2 =
       [ (DownReport1, [1; 0x01; 0x03; 0x7F; 0xfa; 0x03; 0xf4; 0x01], 8);
         (DownReport2, [1; 0x02; 0x03; 0x7F; 0x88; 0x13; 0x88; 0x13], 8);
         (UpReport3,   [1; 0x03; 0x00; 0x00; 0x00; 0x00; 0x00; 0x00], 8) ].
Proof.
  do 4 eexists. split; [vm_compute; reflexivity|].
  repeat split; vm_compute; reflexivity.
Qed.

(** What [touchCount] holds at the end of every finished cycle: the number
    of keys that went down in this cycle. *)
Lemma touchCount_counts_new_presses fuel inp s :
  finishes fuel inp = true ->
  exists s' evs,
    loop_body fuel inp s = Some (tt, s', evs)
    /\ touchCount s' = new_presses inp s.
Proof.
  intros F. destruct (loop_body_finishes fuel inp s F) as (evs & L).
  exists (cycle_state inp s), evs. split; [exact L | apply cycle_touchCount].
Qed.

(** C2, as stated, fails: with key 1 pressed alone from the initial state,
    key 2 does not change and still has an up report dispatched. *)
Lemma C2_unchanged_key_is_reported :
  exists s' evs,
    loop_body 0 hold1 init_state = Some (tt, s', evs)
    /\ changed K2 init_state s' = false
    /\ reports_for K2 evs = [Up].
Proof. do 2 eexists. split; [vm_compute; reflexivity|]. split; reflexivity. Qed.

(** C2 (amended).  A cycle whose wait for the encoder ends does finish, and
    it is dirty exactly when the encoder's phase A was asserted or some key
    changed.  In a dirty cycle exactly one report is dispatched for each of
    the three keys, down if the key is pressed after sampling and up
    otherwise; in a cycle that is not dirty no report is dispatched.  So a
    key whose state changed has exactly one report, down if it became
    pressed and up if it became released. *)
Theorem C2_reports_follow_dirty_cycle fuel inp s :
  finishes fuel inp = true ->
  exists s' evs,
    loop_body fuel inp s = Some (tt, s', evs)
    /\ truthy (keyDirty s')
       = (turned inp || (changed K1 s s' || changed K2 s s' || changed K3 s s'))
    /\ forall k,
         reports_for k evs
         = (if truthy (keyDirty s') then [if is_pressed k s' then Down else Up]
            else [])
         /\ (changed k s s' = true ->
             reports_for k evs = [if is_pressed k s then Up else Down]).
Proof.
  intros F. destruct (loop_body_finishes fuel inp s F) as (evs & L).
  exists (cycle_state inp s), evs. split; [exact L|].
  assert (D : truthy (keyDirty (cycle_state inp s))
              = (turned inp
                 || (changed K1 s (cycle_state inp s)
                     || changed K2 s (cycle_state inp s)
                     || changed K3 s (cycle_state inp s)))).
  { rewrite dirty_cycle, !changed_cycle. reflexivity. }
  split; [exact D|]. intros k.
  rewrite (cycle_reports _ _ _ _ _ k L). split; [reflexivity|].
  intros C. rewrite (changed_is_dirty _ _ _ C). unfold changed in C.
  destruct (is_pressed k s), (is_pressed k (cycle_state inp s));
    try discriminate; reflexivity.
Qed.

Lemma C2_reports_follow_dirty_cycle_witness :
  exists s' evs,
    loop_body 0 hold1 init_state = Some (tt, s', evs)
    /\ truthy (keyDirty s')
       = (turned hold1
          || (changed K1 init_state s' || changed K2 init_state s'
              || changed K3 init_state s'))
    /\ forall k,
         reports_for k evs
         = (if truthy (keyDirty s') then [if is_pressed k s' then Down else Up]
            else [])
         /\ (changed k init_state s' = true ->
             reports_for k evs = [if is_pressed k init_state then Up else Down]).
Proof. apply (C2_reports_follow_dirty_cycle 0%nat hold1 init_state). reflexivity. Defined.

(** C3, as stated, fails: key 2 is pressed and released while key 1 stays
    untouched, and key 1 has two up reports in a row. *)
Lemma C3_two_ups_in_a_row :
  exists log,
    run 0 [hold2; idle] init_state = Some log
    /\ all_reports K1 log = [Up; Up]
    /\ alternates (all_reports K1 log) = false.
Proof. eexists. split; [vm_compute; reflexivity|]. split; reflexivity. Qed.

(** C3 (amended).  Over any run whose cycles finish, the reports dispatched
    for a key in the cycles in which that key's own tracked state changed
    alternate strictly, beginning with a down when the key starts released
    and with an up when it starts pressed.  Every report of the key, in
    whichever dirty cycle, is down when the key is pressed at the end of
    that cycle and up otherwise. *)
Theorem C3_edge_reports_alternate fuel inputs s k :
  Forall (fun inp => finishes fuel inp = true) inputs ->
  exists log,
    run fuel inputs s = Some log
    /\ length log = length inputs
    /\ alternates (edge_reports k s log) = true
    /\ (forall v, head (edge_reports k s log) = Some v ->
          v = if is_pressed k s then Up else Down)
    /\ Forall (fun c =>
         reports_for k (snd c)
         = if truthy (keyDirty (fst c))
           then [if is_pressed k (fst c) then Down else Up] else []) log.
Proof.
  intros F. destruct (run_finishes fuel inputs s F) as (log & R & Hlen).
  exists log. split; [exact R|]. split; [exact Hlen|].
  clear F Hlen. revert s log R.
  induction inputs as [|inp rest IH]; intros s log R.
  - injection R as <-. cbn. repeat split; [discriminate | constructor].
  - apply run_cons in R as (evs & log' & L & R' & ->).
    destruct (IH _ _ R') as (Halt & Hhd & Hall).
    pose proof (cycle_reports _ _ _ _ _ k L) as Hrep.
    assert (Hlast : Forall (fun c =>
       reports_for k (snd c)
       = if truthy (keyDirty (fst c))
         then [if is_pressed k (fst c) then Down else Up] else [])
       ((cycle_state inp s, evs) :: log')).
    { constructor; assumption. }
    cbn [edge_reports].
    destruct (changed k s (cycle_state inp s)) eqn:C.
    + rewrite Hrep, (changed_is_dirty _ _ _ C). cbn [app].
      unfold changed in C.
      destruct (is_pressed k s) eqn:P0, (is_pressed k (cycle_state inp s)) eqn:P1;
        try discriminate.
      * repeat split; [|intros v [= <-]; reflexivity | assumption].
        destruct (edge_reports k (cycle_state inp s) log') as [|v l];
          [reflexivity|].
        rewrite alternates_cons2, Halt, (Hhd v eq_refl). reflexivity.
      * repeat split; [|intros v [= <-]; reflexivity | assumption].
        destruct (edge_reports k (cycle_state inp s) log') as [|v l];
          [reflexivity|].
        rewrite alternates_cons2, Halt, (Hhd v eq_refl). reflexivity.
    + cbn [app]. unfold changed in C.
      assert (is_pressed k (cycle_state inp s) = is_pressed k s) as E.
      { destruct (is_pressed k s), (is_pressed k (cycle_state inp s));
          try discriminate; reflexivity. }
      rewrite E in Hhd. repeat split; assumption.
Qed.

Lemma C3_edge_reports_alternate_witness :
  exists log,
    run 3 [hold2; detent; idle; hold12] init_state = Some log
    /\ length log = length [hold2; detent; idle; hold12]
    /\ alternates (edge_reports K2 init_state log) = true
    /\ (forall v, head (edge_reports K2 init_state log) = Some v ->
          v = if is_pressed K2 init_state then Up else Down)
    /\ Forall (fun c =>
         reports_for K2 (snd c)
         = if truthy (keyDirty (fst c))
           then [if is_pressed K2 (fst c) then Down else Up] else []) log.
Proof.
  apply (C3_edge_reports_alternate 3%nat [hold2; detent; idle; hold12] init_state K2).
  repeat constructor.
Defined.

(** C4.  In every cycle that finishes, byte 0 of each of the six report
    arrays is overwritten with the cycle's [touchCount], whichever of them
    are dispatched, and every report dispatched in the cycle carries the
    bytes of its array as overwritten. *)
Theorem C4_contact_count_patched fuel inp s :
  finishes fuel inp = true ->
  exists s' evs,
    loop_body fuel inp s = Some (tt, s', evs)
    /\ (forall t, buffer t s' = <[0%nat := touchCount s']> (buffer t s))
    /\ (forall t, (0 < length (buffer t s))%nat ->
          buffer t s' !! 0%nat = Some (touchCount s'))
    /\ (forall t bytes len, In (EvSendReport t bytes len) evs -> bytes = buffer t s').
Proof.
  intros F. destruct (loop_body_finishes fuel inp s F) as (evs & L).
  exists (cycle_state inp s), evs. split; [exact L|].
  apply loop_body_inv in L as [_ (ew & W & ->)].
  assert (B : forall t, buffer t (cycle_state inp s)
                        = <[0%nat := touchCount (cycle_state inp s)]> (buffer t s)).
  { intros t. rewrite cycle_touchCount. apply cycle_buffer. }
  split; [exact B|]. split.
  - intros t Hlen. rewrite B at 1. apply list_lookup_insert_eq. exact Hlen.
  - intros t bytes len Hin. apply In_sent in Hin.
    rewrite (sent_cycle_events fuel) in Hin by assumption.
    rewrite sent_dispatch_events in Hin.
    destruct (truthy (keyDirty (cycle_state inp s))); [|contradiction].
    destruct Hin as [E|[E|[E|[]]]]; injection E as <- <- <-; reflexivity.
Qed.

Lemma C4_contact_count_patched_witness :
  exists s' evs,
    loop_body 0 hold12 init_state = Some (tt, s', evs)
    /\ (forall t, buffer t s' = <[0%nat := touchCount s']> (buffer t init_state))
    /\ (forall t, (0 < length (buffer t init_state))%nat ->
          buffer t s' !! 0%nat = Some (touchCount s'))
    /\ (forall t bytes len, In (EvSendReport t bytes len) evs -> bytes = buffer t s').
Proof. apply (C4_contact_count_patched 0%nat hold12 init_state). reflexivity. Defined.

(** C5.  A cycle that samples for every key the state it already tracks,
    with phase A at rest, finishes with [keyDirty = 0], sends no report and
    writes no LED slot, and leaves the next cycle in the same position; so
    any run of such cycles is silent.  In particular, from the initial state
    with nothing ever touched, every cycle of every run is silent. *)
Theorem C5_quiet_cycles_emit_nothing :
  (forall fuel inputs s,
     Forall (fun inp => quiet inp s = true) inputs ->
     exists log,
       run fuel inputs s = Some log
       /\ length log = length inputs
       /\ Forall (fun c => keyDirty (fst c) = 0
                           /\ sent (snd c) = []
                           /\ led_writes (snd c) = []) log)
  /\ (forall fuel n,
        exists log,
          run fuel (repeat idle n) init_state = Some log
          /\ length log = n
          /\ Forall (fun c => keyDirty (fst c) = 0
                              /\ sent (snd c) = []
                              /\ led_writes (snd c) = []) log).
Proof.
  assert (G : forall fuel inputs s,
     Forall (fun inp => quiet inp s = true) inputs ->
     exists log,
       run fuel inputs s = Some log
       /\ length log = length inputs
       /\ Forall (fun c => keyDirty (fst c) = 0
                           /\ sent (snd c) = []
                           /\ led_writes (snd c) = []) log).
  { intros fuel inputs. induction inputs as [|inp rest IH]; intros s Hq.
    - exists []. repeat split. constructor.
    - inversion Hq as [|? ? Hinp Hrest]; subst.
      destruct (quiet_cycle _ _ Hinp) as (Ha & Hd & Hp).
      assert (Hrest' : Forall (fun i => quiet i (cycle_state inp s) = true) rest).
      { eapply Forall_impl; [exact Hrest|]. cbn. intros i Hi.
        unfold quiet in *. rewrite !Hp. exact Hi. }
      destruct (IH _ Hrest') as (log & Hrun & Hlen & Hall).
      exists ((cycle_state inp s, cycle_events inp [] (cycle_state inp s)) :: log).
      cbn [run]. rewrite (loop_body_at_rest fuel) by assumption. rewrite Hrun.
      split; [reflexivity|]. split; [cbn; congruence|].
      constructor; [|exact Hall]. cbn [fst snd].
      assert (W : wait_result fuel inp = Some []).
      { unfold wait_result. rewrite Ha. reflexivity. }
      rewrite (sent_cycle_events fuel), (led_writes_cycle_events fuel) by exact W.
      rewrite sent_dispatch_events, led_writes_dispatch_events, Hd.
      repeat split. }
  split; [exact G|].
  intros fuel n.
  destruct (G fuel (repeat idle n) init_state) as (log & Hrun & Hlen & Hall).
  - clear. induction n; cbn [repeat]; constructor; [reflexivity | assumption].
  - exists log. rewrite repeat_length in Hlen. auto.
Qed.

Lemma C5_quiet_cycles_emit_nothing_witness :
  exists log,
    run 0 [hold1; hold1; hold1] (set_key1Pressed 1 init_state) = Some log
    /\ length log = length [hold1; hold1; hold1]
    /\ Forall (fun c => keyDirty (fst c) = 0
                        /\ sent (snd c) = []
                        /\ led_writes (snd c) = []) log.
Proof.
  apply (proj1 C5_quiet_cycles_emit_nothing 0%nat [hold1; hold1; hold1]
           (set_key1Pressed 1 init_state)).
  repeat constructor.
Defined.

(** C6.  In every finished cycle that is dirty, the LED slot of each of the
    three keys is written, in slot order, with the colour the mapping
    prescribes: (25,19,0) when the key is pressed, (15,5,0) when it is not
    and [lampLight] is set, cleared otherwise.  A cycle in which
    [lampLight] changes is dirty, so the slots of the keys that are not
    pressed are rewritten in that very cycle. *)
Theorem C6_led_recomputed_when_dirty fuel inp s :
  finishes fuel inp = true ->
  exists s' evs,
    loop_body fuel inp s = Some (tt, s', evs)
    /\ (truthy (keyDirty s') = true ->
          led_writes evs =
          [ led_command 0 (is_pressed K1 s') (truthy (lampLight s'));
            led_command 1 (is_pressed K2 s') (truthy (lampLight s'));
            led_command 2 (is_pressed K3 s') (truthy (lampLight s')) ])
    /\ (lampLight s' <> lampLight s -> truthy (keyDirty s') = true).
Proof.
  intros F. destruct (loop_body_finishes fuel inp s F) as (evs & L).
  exists (cycle_state inp s), evs. split; [exact L|].
  apply loop_body_inv in L as [_ (ew & W & ->)]. split.
  - intros D. rewrite (led_writes_cycle_events fuel) by assumption.
    rewrite led_writes_dispatch_events, D. reflexivity.
  - intros Hl. rewrite dirty_cycle. rewrite cycle_lampLight in Hl.
    destruct (turned inp); [reflexivity | congruence].
Qed.

Lemma C6_led_recomputed_when_dirty_witness :
  exists s' evs,
    loop_body 3 detent init_state = Some (tt, s', evs)
    /\ (truthy (keyDirty s') = true ->
          led_writes evs =
          [ led_command 0 (is_pressed K1 s') (truthy (lampLight s'));
            led_command 1 (is_pressed K2 s') (truthy (lampLight s'));
            led_command 2 (is_pressed K3 s') (truthy (lampLight s')) ])
    /\ (lampLight s' <> lampLight init_state -> truthy (keyDirty s') = true).
Proof. apply (C6_led_recomputed_when_dirty 3%nat detent init_state). reflexivity. Defined.

(** C7.  When phase A is not asserted at line 200, the cycle finishes
    without reading phase B and leaves [lampLight] alone.  When phase A is
    asserted, the cycle reads phase B exactly once, sets [lampLight] to 1
    if B reads high and to 0 if it reads low, waits 10 ms, then keeps
    reading phase A until it reads high, and only then marks the cycle
    dirty and goes on to the dispatch; as long as phase A reads low the
    cycle does not finish. *)
Theorem C7_encoder_detent fuel inp s :
  (enc_a_level inp = true ->
     exists evs,
       loop_body fuel inp s = Some (tt, cycle_state inp s, evs)
       /\ lampLight (cycle_state inp s) = lampLight s
       /\ reads_of PIN_ENC_B evs = 0%nat)
  /\ (enc_a_level inp = false ->
      (loop_body fuel inp s = None <->
       forall j, (j < fuel)%nat -> enc_a_wait inp j = false)
      /\ forall s' evs,
           loop_body fuel inp s = Some (tt, s', evs) ->
           lampLight s' = (if enc_b_level inp then 1 else 0)
           /\ keyDirty s' = 1
           /\ reads_of PIN_ENC_B evs = 1%nat
           /\ exists n,
                (n < fuel)%nat
                /\ (forall j, (j < n)%nat -> enc_a_wait inp j = false)
                /\ enc_a_wait inp n = true
                /\ evs =
                   key_events inp
                   ++ [EvPinRead PIN_ENC_A false;
                       EvPinRead PIN_ENC_B (enc_b_level inp);
                       EvDelay 10]
                   ++ repeat (EvPinRead PIN_ENC_A false) n
                   ++ [EvPinRead PIN_ENC_A true]
                   ++ dispatch_events s' ++ [EvUpdate]).
Proof.
  split; intros Ha.
  - exists (cycle_events inp [] (cycle_state inp s)).
    split; [apply loop_body_at_rest; assumption|]. split.
    + rewrite cycle_lampLight. unfold turned. rewrite Ha. reflexivity.
    + unfold cycle_events, encoder_events. rewrite Ha.
      rewrite !reads_of_app, reads_of_B_keys, reads_of_B_dispatch. reflexivity.
  - split.
    + rewrite loop_body_eq. unfold wait_result. rewrite Ha.
      rewrite <- (wait_events_None fuel (enc_a_wait inp) 0%nat). cbn [Nat.add].
      destruct (wait_events fuel (enc_a_wait inp) 0%nat); cbn [option_map];
        split; intros; congruence.
    + intros s' evs L. apply loop_body_inv in L as [-> (ew & W & ->)].
      unfold wait_result in W. rewrite Ha in W.
      apply wait_events_Some in W as (n & Hn & Hlow & Hhigh & ->).
      cbn [Nat.add] in Hlow, Hhigh.
      split; [rewrite cycle_lampLight; unfold turned; rewrite Ha; reflexivity|].
      split; [rewrite cycle_keyDirty; unfold turned; rewrite Ha; reflexivity|].
      assert (E : cycle_events inp
                    (repeat (EvPinRead PIN_ENC_A false) n ++ [EvPinRead PIN_ENC_A true])
                    (cycle_state inp s)
                  = key_events inp
                    ++ [EvPinRead PIN_ENC_A false;
                        EvPinRead PIN_ENC_B (enc_b_level inp);
                        EvDelay 10]
                    ++ repeat (EvPinRead PIN_ENC_A false) n
                    ++ [EvPinRead PIN_ENC_A true]
                    ++ dispatch_events (cycle_state inp s) ++ [EvUpdate]).
      { unfold cycle_events, encoder_events. rewrite Ha.
        cbn [app]. rewrite <- !app_assoc. reflexivity. }
      split.
      * rewrite E, !reads_of_app, reads_of_B_keys, reads_of_repeat_A,
          reads_of_B_dispatch. reflexivity.
      * exists n. repeat split; assumption.
Qed.

Lemma C7_encoder_detent_witness :
  (exists evs,
     loop_body 3 idle init_state = Some (tt, cycle_state idle init_state, evs)
     /\ lampLight (cycle_state idle init_state) = lampLight init_state
     /\ reads_of PIN_ENC_B evs = 0%nat)
  /\ (loop_body 3 detent init_state = None <->
      forall j, (j < 3)%nat -> enc_a_wait detent j = false)
  /\ exists s' evs,
       loop_body 3 detent init_state = Some (tt, s', evs)
       /\ lampLight s' = 1
       /\ keyDirty s' = 1
       /\ reads_of PIN_ENC_B evs = 1%nat.
Proof.
  split; [apply (proj1 (C7_encoder_detent 3 idle init_state)); reflexivity|].
  pose proof (proj2 (C7_encoder_detent 3 detent init_state) eq_refl) as [Hnone Hsome].
  split; [exact Hnone|].
  do 2 eexists. split; [vm_compute; reflexivity|].
  match goal with
  | |- lampLight ?s' = 1 /\ _ /\ reads_of _ ?evs = _ =>
      destruct (Hsome s' evs) as (Hlamp & Hdirty & Hreads & _);
        [vm_compute; reflexivity|]
  end.
  split; [exact Hlamp|]. split; [exact Hdirty | exact Hreads].
Defined.

(** C8.  Key 3 is taken as sampled-pressed exactly when its own line or
    the line of the encoder push-button is asserted.  In a cycle that
    finishes, the flag of key 3 follows that disjunction; when this makes
    the tracked state of key 3 change, the cycle is dirty, exactly one
    report is dispatched for key 3 (the third of the cycle: the down array
    if the disjunction holds, the up array otherwise, with its patched
    bytes) and slot 2 is written with the colour for the new state; and
    the cycle ends in the same state with the same outputs (delays, LED
    writes, reports) whichever of the two lines produced the
    disjunction. *)
Theorem C8_key3_or_switch fuel inp s :
  finishes fuel inp = true ->
  exists s' evs,
    loop_body fuel inp s = Some (tt, s', evs)
    /\ is_pressed K3 s' = (negb (key3_level inp) || negb (enc_sw_level inp))
    /\ key3Pressed s'
       = next_flag (negb (key3_level inp) || negb (enc_sw_level inp)) (key3Pressed s)
    /\ (xorb (negb (key3_level inp) || negb (enc_sw_level inp)) (is_pressed K3 s)
        = true ->
        keyDirty s' = 1
        /\ reports_for K3 evs
           = [if negb (key3_level inp) || negb (enc_sw_level inp) then Down else Up]
        /\ length (sent evs) = 3%nat
        /\ sent evs !! 2%nat
           = Some (if negb (key3_level inp) || negb (enc_sw_level inp)
                   then DownReport3 else UpReport3,
                   buffer (if negb (key3_level inp) || negb (enc_sw_level inp)
                           then DownReport3 else UpReport3) s',
                   8)
        /\ length (led_writes evs) = 3%nat
        /\ led_writes evs !! 2%nat
           = Some (led_command 2
                     (negb (key3_level inp) || negb (enc_sw_level inp))
                     (truthy (lampLight s'))))
    /\ forall k3 sw,
         negb k3 || negb sw = negb (key3_level inp) || negb (enc_sw_level inp) ->
         exists evs',
           loop_body fuel (with_key3_lines k3 sw inp) s = Some (tt, s', evs')
           /\ outputs evs' = outputs evs.
Proof.
  intros F. destruct (loop_body_finishes fuel inp s F) as (evs & L).
  exists (cycle_state inp s), evs. split; [exact L|].
  apply loop_body_inv in L as [_ (ew & W & ->)].
  split; [apply (cycle_pressed K3)|].
  split; [apply (cycle_flag K3)|].
  split.
  - intros E. change (xorb (sampled K3 inp) (is_pressed K3 s) = true) in E.
    assert (D : keyDirty (cycle_state inp s) = 1).
    { rewrite cycle_keyDirty. unfold any_edge. rewrite E, !orb_true_r. reflexivity. }
    split; [exact D|].
    rewrite (reports_for_cycle_events fuel), (sent_cycle_events fuel),
      (led_writes_cycle_events fuel) by exact W.
    rewrite reports_for_dispatch_events, sent_dispatch_events,
      led_writes_dispatch_events, D, !cycle_pressed.
    change (truthy 1) with true. cbv iota.
    repeat split; reflexivity.
  - intros k3 sw H.
    exists (cycle_events (with_key3_lines k3 sw inp) ew (cycle_state inp s)).
    split.
    + rewrite loop_body_eq.
      change (wait_result fuel (with_key3_lines k3 sw inp)) with (wait_result fuel inp).
      rewrite W. cbn [option_map].
      rewrite (cycle_state_key3_lines k3 sw inp s H). reflexivity.
    + rewrite (outputs_cycle_events fuel (with_key3_lines k3 sw inp)) by exact W.
      rewrite (outputs_cycle_events fuel inp) by exact W. reflexivity.
Qed.

Lemma C8_key3_or_switch_witness :
  exists s' evs,
    loop_body 0 hold_switch init_state = Some (tt, s', evs)
    /\ is_pressed K3 s' = true
    /\ key3Pressed s' = 1
    /\ keyDirty s' = 1
    /\ reports_for K3 evs = [Down]
    /\ length (sent evs) = 3%nat
    /\ sent evs !! 2%nat = Some (DownReport3, buffer DownReport3 s', 8)
    /\ length (led_writes evs) = 3%nat
    /\ led_writes evs !! 2%nat = Some (EvWriteColor 2 25 19 0)
    /\ forall k3 sw,
         negb k3 || negb sw = true ->
         exists evs',
           loop_body 0 (with_key3_lines k3 sw hold_switch) init_state
           = Some (tt, s', evs')
           /\ outputs evs' = outputs evs.
Proof.
  destruct (C8_key3_or_switch 0%nat hold_switch init_state eq_refl)
    as (s' & evs & L & Hp & Hf & Hedge & Hsame).
  destruct (Hedge eq_refl) as (Hd & Hr & Hn & Hs & Hm & Hl).
  exists s', evs.
  split; [exact L|]. split; [exact Hp|]. split; [exact Hf|].
  split; [exact Hd|]. split; [exact Hr|]. split; [exact Hn|].
  split; [exact Hs|]. split; [exact Hm|]. split; [exact Hl|].
  exact Hsame.
Defined.

(** C9.  From a state with all three keys released, a cycle that samples
    all three keys pressed and finishes sets [touchCount] to 3 and
    dispatches exactly three reports: the down report of key 1, then of
    key 2, then of key 3, each with 3 in byte 0 and the key's fixed bytes
    after it. *)
Theorem C9_three_keys_down fuel inp s :
  templates_intact s ->
  is_pressed K1 s = false -> is_pressed K2 s = false -> is_pressed K3 s = false ->
  sampled K1 inp = true -> sampled K2 inp = true -> sampled K3 inp = true ->
  finishes fuel inp = true ->
  exists s' evs,
    loop_body fuel inp s = Some (tt, s', evs)
    /\ touchCount s' = 3
    /\ sent evs =
       [ (DownReport1, [3; 0x01; 0x03; 0x7F; 0xfa; 0x03; 0xf4; 0x01], 8);
         (DownReport2, [3; 0x02; 0x03; 0x7F; 0x88; 0x13; 0x88; 0x13], 8);
         (DownReport3, [3; 0x03; 0x03; 0x7F; 0xf3; 0x20; 0x39; 0x24], 8) ].
Proof.
  intros Hint P1 P2 P3 S1 S2 S3 F.
  destruct (loop_body_finishes fuel inp s F) as (evs & L).
  exists (cycle_state inp s), evs. split; [exact L|].
  apply loop_body_inv in L as [_ (ew & W & ->)].
  assert (N : new_presses inp s = 3).
  { unfold new_presses. rewrite P1, P2, P3, S1, S2, S3. reflexivity. }
  split; [rewrite cycle_touchCount; exact N|].
  rewrite (sent_cycle_events fuel) by assumption.
  rewrite sent_dispatch_events, dirty_cycle, !cycle_pressed, S1, S2, S3.
  unfold any_edge. rewrite P1, S1, !cycle_buffer, N. rewrite orb_true_r.
  rewrite !intact_store by assumption. reflexivity.
Qed.

Lemma C9_three_keys_down_witness :
  exists s' evs,
    loop_body 0 hold123 init_state = Some (tt, s', evs)
    /\ touchCount s' = 3
    /\ sent evs =
       [ (DownReport1, [3; 0x01; 0x03; 0x7F; 0xfa; 0x03; 0xf4; 0x01], 8);
         (DownReport2, [3; 0x02; 0x03; 0x7F; 0x88; 0x13; 0x88; 0x13], 8);
         (DownReport3, [3; 0x03; 0x03; 0x7F; 0xf3; 0x20; 0x39; 0x24], 8) ].
Proof.
  apply (C9_three_keys_down 0%nat hold123 init_state);
    [ intros t; reflexivity
    | reflexivity | reflexivity | reflexivity
    | reflexivity | reflexivity | reflexivity
    | reflexivity ].
Defined.

(** C10.  Over any run whose cycles finish, at the end of every cycle each
    of the six report arrays has the length it started with and the same
    bytes at every index from 1 on: the loop writes byte 0 only.  From the
    initial state, the contact identifier, flags, pressure and coordinate
    bytes are those of the initialisers after every cycle. *)
Theorem C10_tail_bytes_untouched fuel inputs s :
  Forall (fun inp => finishes fuel inp = true) inputs ->
  exists log,
    run fuel inputs s = Some log
    /\ length log = length inputs
    /\ Forall (fun c => forall t,
            drop 1 (buffer t (fst c)) = drop 1 (buffer t s)
            /\ length (buffer t (fst c)) = length (buffer t s)
            /\ forall i, (1 <= i)%nat -> buffer t (fst c) !! i = buffer t s !! i) log
    /\ (s = init_state -> Forall (fun c => templates_intact (fst c)) log).
Proof.
  intros F. destruct (run_finishes fuel inputs s F) as (log & R & Hlen).
  exists log. split; [exact R|]. split; [exact Hlen|].
  assert (G : Forall (fun c => forall t,
            drop 1 (buffer t (fst c)) = drop 1 (buffer t s)
            /\ length (buffer t (fst c)) = length (buffer t s)) log).
  { clear F Hlen. revert s log R.
    induction inputs as [|inp rest IH]; intros s log R.
    - injection R as <-. constructor.
    - apply run_cons in R as (evs & log' & L & R' & ->).
      constructor; [intros t; apply cycle_tail|].
      eapply Forall_impl; [exact (IH _ _ R')|].
      cbn. intros c Hc t. destruct (Hc t) as [Hd Hl].
      destruct (cycle_tail t inp s) as [Hd' Hl']. split; congruence. }
  split.
  - eapply Forall_impl; [exact G|]. cbn. intros c Hc t.
    destruct (Hc t) as [Hd Hl]. split; [exact Hd|]. split; [exact Hl|].
    intros i Hi.
    replace i with (1 + (i - 1))%nat by lia.
    rewrite <- !lookup_drop, Hd. reflexivity.
  - intros ->. eapply Forall_impl; [exact G|]. cbn. intros c Hc t.
    apply (Hc t).
Qed.

Lemma C10_tail_bytes_untouched_witness :
  exists log,
    run 3 [hold1; detent; hold12; idle] init_state = Some log
    /\ length log = length [hold1; detent; hold12; idle]
    /\ Forall (fun c => forall t,
            drop 1 (buffer t (fst c)) = drop 1 (buffer t init_state)
            /\ length (buffer t (fst c)) = length (buffer t init_state)
            /\ forall i, (1 <= i)%nat ->
                 buffer t (fst c) !! i = buffer t init_state !! i) log
    /\ (init_state = init_state -> Forall (fun c => templates_intact (fst c)) log).
Proof.
  apply (C10_tail_bytes_untouched 3%nat [hold1; detent; hold12; idle] init_state).
  repeat constructor.
Defined.

(** ** Further properties of the loop and of start-up *)

Lemma truthy_false p : truthy p = false -> p = 0.
Proof. unfold truthy. destruct (Z.eqb_spec p 0); [auto | discriminate]. Qed.

Lemma pressed_count_cycle inp s :
  pressed_count (cycle_state inp s)
  = Z.b2z (sampled K1 inp) + Z.b2z (sampled K2 inp) + Z.b2z (sampled K3 inp).
Proof. unfold pressed_count. rewrite !cycle_pressed. reflexivity. Qed.

Lemma dispatch_events_explicit s :
  dispatch_events s =
  if truthy (keyDirty s) then
    [ led_command 0 (is_pressed K1 s) (truthy (lampLight s));
      EvSendReport (if is_pressed K1 s then DownReport1 else UpReport1)
        (buffer (if is_pressed K1 s then DownReport1 else UpReport1) s) 8;
      led_command 1 (is_pressed K2 s) (truthy (lampLight s));
      EvSendReport (if is_pressed K2 s then DownReport2 else UpReport2)
        (buffer (if is_pressed K2 s then DownReport2 else UpReport2) s) 8;
      led_command 2 (is_pressed K3 s) (truthy (lampLight s));
      EvSendReport (if is_pressed K3 s then DownReport3 else UpReport3)
        (buffer (if is_pressed K3 s then DownReport3 else UpReport3) s) 8 ]
  else [].
Proof.
  unfold dispatch_events, key_feedback.
  destruct (truthy (keyDirty s)); [|reflexivity].
  destruct (is_pressed K1 s), (is_pressed K2 s), (is_pressed K3 s); reflexivity.
Qed.

Lemma reads_of_repeat p q lv n :
  reads_of p (repeat (EvPinRead q lv) n) = if Pin_eqb p q then n else 0%nat.
Proof.
  unfold reads_of. induction n as [|n IH]; cbn [repeat List.filter].
  - destruct (Pin_eqb p q); reflexivity.
  - destruct (Pin_eqb p q); cbn [length]; rewrite IH; reflexivity.
Qed.

Lemma reads_of_dispatch p s : reads_of p (dispatch_events s) = 0%nat.
Proof.
  rewrite dispatch_events_explicit. unfold led_command.
  destruct (truthy (keyDirty s)); [|reflexivity].
  destruct (is_pressed K1 s), (is_pressed K2 s), (is_pressed K3 s),
    (truthy (lampLight s)); reflexivity.
Qed.

Lemma reads_of_cycle p inp ew s' :
  reads_of p (cycle_events inp ew s')
  = (reads_of p (key_events inp) + reads_of p (encoder_events inp ew))%nat.
Proof.
  unfold cycle_events. rewrite !reads_of_app, reads_of_dispatch.
  change (reads_of p [EvUpdate]) with 0%nat. lia.
Qed.

Lemma reads_of_encoder_turned p inp n :
  enc_a_level inp = false ->
  reads_of p (encoder_events inp
                (repeat (EvPinRead PIN_ENC_A false) n ++ [EvPinRead PIN_ENC_A true]))
  = ((if Pin_eqb p PIN_ENC_A then n + 2 else 0)
     + (if Pin_eqb p PIN_ENC_B then 1 else 0))%nat.
Proof.
  intros Ha. unfold encoder_events. rewrite Ha.
  change (EvPinRead PIN_ENC_A false
          :: [EvPinRead PIN_ENC_B (enc_b_level inp); EvDelay 10]
             ++ repeat (EvPinRead PIN_ENC_A false) n ++ [EvPinRead PIN_ENC_A true])
    with ([EvPinRead PIN_ENC_A false; EvPinRead PIN_ENC_B (enc_b_level inp); EvDelay 10]
          ++ repeat (EvPinRead PIN_ENC_A false) n ++ [EvPinRead PIN_ENC_A true]).
  rewrite !reads_of_app, reads_of_repeat.
  destruct p; cbn; lia.
Qed.

(** X1.  At the end of every finished cycle [touchCount] is the number of
    keys that went down in this cycle.  It lies between 0 and 3, so neither
    the 16-bit counter nor the byte stored in the reports wraps; it never
    exceeds the number of keys pressed, and it equals that number when all
    three keys were released before the cycle. *)
Theorem X1_touch_count_range fuel inp s :
  finishes fuel inp = true ->
  exists s' evs,
    loop_body fuel inp s = Some (tt, s', evs)
    /\ touchCount s' = new_presses inp s
    /\ 0 <= touchCount s' <= 3
    /\ touchCount s' <= pressed_count s'
    /\ (is_pressed K1 s = false -> is_pressed K2 s = false ->
        is_pressed K3 s = false -> touchCount s' = pressed_count s').
Proof.
  intros F. destruct (loop_body_finishes fuel inp s F) as (evs & L).
  exists (cycle_state inp s), evs. split; [exact L|].
  rewrite cycle_touchCount, pressed_count_cycle.
  split; [reflexivity|]. split; [apply new_presses_range|].
  unfold new_presses. split.
  - destruct (sampled K1 inp), (sampled K2 inp), (sampled K3 inp),
      (is_pressed K1 s), (is_pressed K2 s), (is_pressed K3 s); cbn; lia.
  - intros -> -> ->. rewrite !andb_true_r. reflexivity.
Qed.

Lemma X1_touch_count_range_witness :
  exists s' evs,
    loop_body 0 hold12 (set_key1Pressed 1 init_state) = Some (tt, s', evs)
    /\ touchCount s' = new_presses hold12 (set_key1Pressed 1 init_state)
    /\ 0 <= touchCount s' <= 3
    /\ touchCount s' <= pressed_count s'
    /\ (is_pressed K1 (set_key1Pressed 1 init_state) = false ->
        is_pressed K2 (set_key1Pressed 1 init_state) = false ->
        is_pressed K3 (set_key1Pressed 1 init_state) = false ->
        touchCount s' = pressed_count s').
Proof.
  apply (X1_touch_count_range 0%nat hold12 (set_key1Pressed 1 init_state)).
  reflexivity.
Defined.

(** X2.  At the end of every finished cycle the tracked state of each key
    is what the cycle sampled for it, whatever the other keys and the
    encoder did: a key sampled released has flag 0, a key sampled pressed
    keeps its flag if it was pressed already and gets 1 otherwise. *)
Theorem X2_flags_follow_samples fuel inp s :
  finishes fuel inp = true ->
  exists s' evs,
    loop_body fuel inp s = Some (tt, s', evs)
    /\ forall k,
         is_pressed k s' = sampled k inp
         /\ pressed_flag k s'
            = (if sampled k inp
               then (if is_pressed k s then pressed_flag k s else 1)
               else 0).
Proof.
  intros F. destruct (loop_body_finishes fuel inp s F) as (evs & L).
  exists (cycle_state inp s), evs. split; [exact L|].
  intros k. split; [apply cycle_pressed|].
  rewrite cycle_flag. unfold next_flag, is_pressed.
  destruct (sampled k inp); [reflexivity|].
  destruct (truthy (pressed_flag k s)) eqn:E; [reflexivity|].
  apply truthy_false. exact E.
Qed.

Lemma X2_flags_follow_samples_witness :
  exists s' evs,
    loop_body 0 hold_switch init_state = Some (tt, s', evs)
    /\ forall k,
         is_pressed k s' = sampled k hold_switch
         /\ pressed_flag k s'
            = (if sampled k hold_switch
               then (if is_pressed k init_state then pressed_flag k init_state else 1)
               else 0).
Proof. apply (X2_flags_follow_samples 0%nat hold_switch init_state). reflexivity. Defined.

(** X3.  Pin reads aside, a finished cycle does exactly this, in order: it
    toggles [PIN_LED], waits 10 ms, waits another 10 ms if phase A was
    asserted, then, if the cycle is dirty, for key 1, key 2 and key 3 in
    turn writes the key's LED slot and sends the key's report, and finally
    calls [NEO_update] once. *)
Theorem X3_cycle_outputs fuel inp s :
  finishes fuel inp = true ->
  exists s' evs,
    loop_body fuel inp s = Some (tt, s', evs)
    /\ outputs evs =
       [EvPinToggle PIN_LED; EvDelay 10]
       ++ (if turned inp then [EvDelay 10] else [])
       ++ (if truthy (keyDirty s') then
             [ led_command 0 (is_pressed K1 s') (truthy (lampLight s'));
               EvSendReport (if is_pressed K1 s' then DownReport1 else UpReport1)
                 (buffer (if is_pressed K1 s' then DownReport1 else UpReport1) s') 8;
               led_command 1 (is_pressed K2 s') (truthy (lampLight s'));
               EvSendReport (if is_pressed K2 s' then DownReport2 else UpReport2)
                 (buffer (if is_pressed K2 s' then DownReport2 else UpReport2) s') 8;
               led_command 2 (is_pressed K3 s') (truthy (lampLight s'));
               EvSendReport (if is_pressed K3 s' then DownReport3 else UpReport3)
                 (buffer (if is_pressed K3 s' then DownReport3 else UpReport3) s') 8 ]
           else [])
       ++ [EvUpdate].
Proof.
  intros F. destruct (loop_body_finishes fuel inp s F) as (evs & L).
  exists (cycle_state inp s), evs. split; [exact L|].
  apply loop_body_inv in L as [_ (ew & W & ->)].
  rewrite (outputs_cycle_events fuel) by exact W.
  rewrite dispatch_events_explicit. unfold turned.
  destruct (enc_a_level inp); reflexivity.
Qed.

Lemma X3_cycle_outputs_witness :
  exists s' evs,
    loop_body 3 detent init_state = Some (tt, s', evs)
    /\ outputs evs =
       [EvPinToggle PIN_LED; EvDelay 10]
       ++ (if turned detent then [EvDelay 10] else [])
       ++ (if truthy (keyDirty s') then
             [ led_command 0 (is_pressed K1 s') (truthy (lampLight s'));
               EvSendReport (if is_pressed K1 s' then DownReport1 else UpReport1)
                 (buffer (if is_pressed K1 s' then DownReport1 else UpReport1) s') 8;
               led_command 1 (is_pressed K2 s') (truthy (lampLight s'));
               EvSendReport (if is_pressed K2 s' then DownReport2 else UpReport2)
                 (buffer (if is_pressed K2 s' then DownReport2 else UpReport2) s') 8;
               led_command 2 (is_pressed K3 s') (truthy (lampLight s'));
               EvSendReport (if is_pressed K3 s' then DownReport3 else UpReport3)
                 (buffer (if is_pressed K3 s' then DownReport3 else UpReport3) s') 8 ]
           else [])
       ++ [EvUpdate].
Proof. apply (X3_cycle_outputs 3%nat detent init_state). reflexivity. Defined.

(** X4.  A finished cycle reads the lines of key 1, key 2 and key 3 exactly
    once each and never reads [PIN_LED]; it reads the encoder push-button
    once when the line of key 3 is high and not at all when it is low.
    Phase A is read once when it is at rest; when it is asserted it is read
    [n + 2] times, [n] being the number of low readings the wait sees
    before the first high one. *)
Theorem X4_pin_reads fuel inp s :
  finishes fuel inp = true ->
  exists s' evs,
    loop_body fuel inp s = Some (tt, s', evs)
    /\ reads_of PIN_KEY1 evs = 1%nat
    /\ reads_of PIN_KEY2 evs = 1%nat
    /\ reads_of PIN_KEY3 evs = 1%nat
    /\ reads_of PIN_ENC_SW evs = (if key3_level inp then 1 else 0)%nat
    /\ reads_of PIN_LED evs = 0%nat
    /\ (enc_a_level inp = true -> reads_of PIN_ENC_A evs = 1%nat)
    /\ (enc_a_level inp = false ->
        exists n,
          (n < fuel)%nat
          /\ (forall j, (j < n)%nat -> enc_a_wait inp j = false)
          /\ enc_a_wait inp n = true
          /\ reads_of PIN_ENC_A evs = (n + 2)%nat).
Proof.
  intros F. destruct (loop_body_finishes fuel inp s F) as (evs & L).
  exists (cycle_state inp s), evs. split; [exact L|].
  apply loop_body_inv in L as [_ (ew & W & ->)].
  unfold wait_result in W. destruct (enc_a_level inp) eqn:Ha.
  - injection W as <-.
    rewrite !reads_of_cycle. unfold key_events, encoder_events. rewrite Ha.
    destruct (key3_level inp); repeat split; try reflexivity; discriminate.
  - apply wait_events_Some in W as (n & Hn & Hlow & Hhigh & ->).
    cbn [Nat.add] in Hlow, Hhigh.
    rewrite !reads_of_cycle, !reads_of_encoder_turned by exact Ha.
    unfold key_events.
    destruct (key3_level inp); repeat split; try reflexivity; try discriminate;
      intros _; exists n; repeat split; try assumption; cbn; lia.
Qed.

Lemma X4_pin_reads_witness :
  exists s' evs,
    loop_body 3 detent init_state = Some (tt, s', evs)
    /\ reads_of PIN_KEY1 evs = 1%nat
    /\ reads_of PIN_KEY2 evs = 1%nat
    /\ reads_of PIN_KEY3 evs = 1%nat
    /\ reads_of PIN_ENC_SW evs = (if key3_level detent then 1 else 0)%nat
    /\ reads_of PIN_LED evs = 0%nat
    /\ (enc_a_level detent = true -> reads_of PIN_ENC_A evs = 1%nat)
    /\ (enc_a_level detent = false ->
        exists n,
          (n < 3)%nat
          /\ (forall j, (j < n)%nat -> enc_a_wait detent j = false)
          /\ enc_a_wait detent n = true
          /\ reads_of PIN_ENC_A evs = (n + 2)%nat).
Proof. apply (X4_pin_reads 3%nat detent init_state). reflexivity. Defined.

Lemma key_step_unused k inp s :
  keysChanged (key_step k inp s) = keysChanged s
  /\ knobDirection (key_step k inp s) = knobDirection s.
Proof.
  unfold key_step.
  destruct (sampled k inp), (is_pressed k s); destruct k; split; reflexivity.
Qed.

Lemma cycle_unused inp s :
  keysChanged (cycle_state inp s) = keysChanged s
  /\ knobDirection (cycle_state inp s) = knobDirection s.
Proof.
  unfold cycle_state.
  change (keysChanged (patched ?x)) with (keysChanged x).
  change (knobDirection (patched ?x)) with (knobDirection x).
  assert (E : forall x, keysChanged (encoder_step inp x) = keysChanged x
                        /\ knobDirection (encoder_step inp x) = knobDirection x).
  { intros x. unfold encoder_step. destruct (turned inp); split; reflexivity. }
  destruct (E (key_step K3 inp (key_step K2 inp (key_step K1 inp
              (set_touchCount 0 (set_keyDirty 0 s)))))) as [-> ->].
  destruct (key_step_unused K3 inp (key_step K2 inp (key_step K1 inp
              (set_touchCount 0 (set_keyDirty 0 s))))) as [-> ->].
  destruct (key_step_unused K2 inp (key_step K1 inp
              (set_touchCount 0 (set_keyDirty 0 s)))) as [-> ->].
  destruct (key_step_unused K1 inp (set_touchCount 0 (set_keyDirty 0 s))) as [-> ->].
  split; reflexivity.
Qed.

Lemma cycle_intact inp s : templates_intact s -> templates_intact (cycle_state inp s).
Proof.
  intros H t. destruct (cycle_tail t inp s) as [-> _]. apply H.
Qed.

Lemma cycle_buffer_intact t inp s :
  templates_intact s ->
  buffer t (cycle_state inp s)
  = touchCount (cycle_state inp s) :: drop 1 (buffer t init_state).
Proof.
  intros H. rewrite cycle_buffer, cycle_touchCount. apply intact_store. exact H.
Qed.

Lemma next_flag_bit a p : is_bit p -> is_bit (next_flag a p).
Proof.
  unfold next_flag, is_bit. intros [-> | ->]; destruct a; cbn; auto.
Qed.

Lemma cycle_well_formed inp s : well_formed s -> well_formed (cycle_state inp s).
Proof.
  intros (B1 & B2 & B3 & BL & _ & _ & Hint).
  unfold well_formed.
  change (key1Pressed (cycle_state inp s)) with (pressed_flag K1 (cycle_state inp s)).
  change (key2Pressed (cycle_state inp s)) with (pressed_flag K2 (cycle_state inp s)).
  change (key3Pressed (cycle_state inp s)) with (pressed_flag K3 (cycle_state inp s)).
  rewrite !cycle_flag, cycle_lampLight, cycle_keyDirty, cycle_touchCount.
  repeat split.
  - apply next_flag_bit, B1.
  - apply next_flag_bit, B2.
  - apply next_flag_bit, B3.
  - unfold is_bit. destruct (turned inp); [destruct (enc_b_level inp); auto | exact BL].
  - unfold is_bit. destruct (turned inp || any_edge inp s); auto.
  - apply new_presses_range.
  - apply new_presses_range.
  - apply cycle_intact, Hint.
Qed.

Lemma quiet_cycle_silent fuel inp s :
  quiet inp s = true ->
  loop_body fuel inp s
  = Some (tt, cycle_state inp s, cycle_events inp [] (cycle_state inp s))
  /\ keyDirty (cycle_state inp s) = 0
  /\ sent (cycle_events inp [] (cycle_state inp s)) = []
  /\ led_writes (cycle_events inp [] (cycle_state inp s)) = [].
Proof.
  intros Q. destruct (quiet_cycle _ _ Q) as (Ha & Hd & _).
  split; [apply loop_body_at_rest; exact Ha|]. split; [exact Hd|].
  assert (W : wait_result fuel inp = Some []).
  { unfold wait_result. rewrite Ha. reflexivity. }
  rewrite (sent_cycle_events fuel), (led_writes_cycle_events fuel) by exact W.
  rewrite sent_dispatch_events, led_writes_dispatch_events, Hd. split; reflexivity.
Qed.

Lemma boot_fill_counts fuel : forall i,
  0 <= i < 256 -> (Z.to_nat i < fuel)%nat ->
  boot_fill fuel i = Some (repeat (SeNeoSendByte 127) (Z.to_nat i)).
Proof.
  induction fuel as [|fuel IH]; intros i Hi Hf; [lia|].
  cbn [boot_fill]. unfold truthy.
  destruct (Z.eqb_spec i 0) as [->|Hne]; cbn [negb]; [reflexivity|].
  assert (E : to_uint8 (i - 1) = i - 1).
  { unfold to_uint8. apply Z.mod_small. lia. }
  rewrite E, IH by lia. cbn [option_map].
  replace (Z.to_nat i) with (S (Z.to_nat (i - 1))) by lia. reflexivity.
Qed.

(** X5.  Between cycles the variables stay well formed: from a state in
    which the key flags, [lampLight] and [keyDirty] hold 0 or 1,
    [touchCount] is at most 3 and the arrays have their initial bytes from
    index 1 on, every finished cycle ends in such a state again, with
    byte 0 of all six arrays equal to [touchCount], and with [keysChanged]
    and [knobDirection] never written. *)
Theorem X5_state_invariant fuel inputs s :
  well_formed s ->
  Forall (fun inp => finishes fuel inp = true) inputs ->
  exists log,
    run fuel inputs s = Some log
    /\ length log = length inputs
    /\ Forall (fun c =>
         well_formed (fst c)
         /\ keysChanged (fst c) = keysChanged s
         /\ knobDirection (fst c) = knobDirection s
         /\ forall t,
              buffer t (fst c) = touchCount (fst c) :: drop 1 (buffer t init_state))
         log.
Proof.
  intros WF F. destruct (run_finishes fuel inputs s F) as (log & R & Hlen).
  exists log. split; [exact R|]. split; [exact Hlen|].
  clear F Hlen. revert s log WF R.
  induction inputs as [|inp rest IH]; intros s log WF R.
  - injection R as <-. constructor.
  - apply run_cons in R as (evs & log' & L & R' & ->).
    pose proof (cycle_well_formed inp s WF) as WF'.
    destruct (cycle_unused inp s) as [Hk Hn].
    constructor.
    + cbn [fst]. split; [exact WF'|]. split; [exact Hk|]. split; [exact Hn|].
      intros t. apply cycle_buffer_intact. apply WF.
    + specialize (IH _ _ WF' R'). rewrite Hk, Hn in IH. exact IH.
Qed.

Lemma X5_state_invariant_witness :
  exists log,
    run 3 [hold1; detent; hold123; idle] init_state = Some log
    /\ length log = length [hold1; detent; hold123; idle]
    /\ Forall (fun c =>
         well_formed (fst c)
         /\ keysChanged (fst c) = keysChanged init_state
         /\ knobDirection (fst c) = knobDirection init_state
         /\ forall t,
              buffer t (fst c) = touchCount (fst c) :: drop 1 (buffer t init_state))
         log.
Proof.
  apply (X5_state_invariant 3%nat [hold1; detent; hold123; idle] init_state).
  - unfold well_formed, is_bit. cbn.
    repeat split; auto; try lia.
  - repeat constructor.
Defined.

(** X6.  Over any run that starts with the arrays' initial bytes from
    index 1 on, every report handed to [HID_sendReport] is eight bytes
    long: the cycle's [touchCount], then the contact identifier of its key,
    then flags 3 and pressure 0x7F with the key's fixed coordinates for a
    down report, and zeros for an up report. *)
Theorem X6_report_bytes fuel inputs s :
  templates_intact s ->
  Forall (fun inp => finishes fuel inp = true) inputs ->
  exists log,
    run fuel inputs s = Some log
    /\ Forall (fun c =>
         Forall (fun r =>
           let '(t, bytes, len) := r in
           len = 8
           /\ bytes = touchCount (fst c) :: drop 1 (buffer t init_state)
           /\ length bytes = 8%nat
           /\ bytes !! 1%nat = Some (contact_id (key_of t))
           /\ bytes !! 2%nat = Some (match variant_of t with Down => 3 | Up => 0 end)
           /\ bytes !! 3%nat = Some (match variant_of t with Down => 0x7F | Up => 0 end)
           /\ (variant_of t = Up -> drop 2 bytes = [0; 0; 0; 0; 0; 0]))
           (sent (snd c))) log.
Proof.
  intros Hint F. destruct (run_finishes fuel inputs s F) as (log & R & _).
  exists log. split; [exact R|].
  clear F. revert s log Hint R.
  induction inputs as [|inp rest IH]; intros s log Hint R.
  - injection R as <-. constructor.
  - apply run_cons in R as (evs & log' & L & R' & ->).
    constructor; [|exact (IH _ _ (cycle_intact inp s Hint) R')].
    cbn [fst snd].
    apply loop_body_inv in L as [_ (ew & W & ->)].
    rewrite (sent_cycle_events fuel) by exact W.
    rewrite sent_dispatch_events.
    assert (G : forall t,
      let bytes := buffer t (cycle_state inp s) in
      (8 : Z) = 8
      /\ bytes = touchCount (cycle_state inp s) :: drop 1 (buffer t init_state)
      /\ length bytes = 8%nat
      /\ bytes !! 1%nat = Some (contact_id (key_of t))
      /\ bytes !! 2%nat = Some (match variant_of t with Down => 3 | Up => 0 end)
      /\ bytes !! 3%nat = Some (match variant_of t with Down => 0x7F | Up => 0 end)
      /\ (variant_of t = Up -> drop 2 bytes = [0; 0; 0; 0; 0; 0])).
    { intros t. cbn zeta. rewrite (cycle_buffer_intact t inp s Hint).
      destruct t; repeat split; try reflexivity; discriminate. }
    destruct (truthy (keyDirty (cycle_state inp s))); [|constructor].
    repeat constructor; apply G.
Qed.

Lemma X6_report_bytes_witness :
  exists log,
    run 3 [hold1; detent; hold12; idle] init_state = Some log
    /\ Forall (fun c =>
         Forall (fun r =>
           let '(t, bytes, len) := r in
           len = 8
           /\ bytes = touchCount (fst c) :: drop 1 (buffer t init_state)
           /\ length bytes = 8%nat
           /\ bytes !! 1%nat = Some (contact_id (key_of t))
           /\ bytes !! 2%nat = Some (match variant_of t with Down => 3 | Up => 0 end)
           /\ bytes !! 3%nat = Some (match variant_of t with Down => 0x7F | Up => 0 end)
           /\ (variant_of t = Up -> drop 2 bytes = [0; 0; 0; 0; 0; 0]))
           (sent (snd c))) log.
Proof.
  apply (X6_report_bytes 3%nat [hold1; detent; hold12; idle] init_state).
  - intros t. reflexivity.
  - repeat constructor.
Defined.

(** X7.  A transition is reported once: after any finished cycle, a cycle
    that samples the same keys with phase A at rest finds nothing changed,
    ends with [keyDirty = 0], sends no report and writes no LED slot, and
    keeps the tracked state of every key. *)
Theorem X7_held_keys_are_silent fuel inp inp2 s :
  finishes fuel inp = true ->
  same_keys inp inp2 ->
  exists c1 c2,
    run fuel [inp; inp2] s = Some [c1; c2]
    /\ keyDirty (fst c2) = 0
    /\ sent (snd c2) = []
    /\ led_writes (snd c2) = []
    /\ forall k, is_pressed k (fst c2) = is_pressed k (fst c1).
Proof.
  intros F [Hs Ha]. destruct (loop_body_finishes fuel inp s F) as (evs & L).
  assert (Q : quiet inp2 (cycle_state inp s) = true).
  { unfold quiet. rewrite !cycle_pressed, !Hs, !eqb_reflx, Ha. reflexivity. }
  destruct (quiet_cycle_silent fuel _ _ Q) as (L2 & Hd & Hsent & Hled).
  destruct (quiet_cycle _ _ Q) as (_ & _ & Hp).
  exists (cycle_state inp s, evs).
  exists (cycle_state inp2 (cycle_state inp s),
          cycle_events inp2 [] (cycle_state inp2 (cycle_state inp s))).
  cbn [run]. rewrite L, L2. cbn [fst snd]. repeat split; assumption.
Qed.

Lemma X7_held_keys_are_silent_witness :
  exists c1 c2,
    run 3 [detent; idle] (set_key1Pressed 1 init_state) = Some [c1; c2]
    /\ keyDirty (fst c2) = 0
    /\ sent (snd c2) = []
    /\ led_writes (snd c2) = []
    /\ forall k, is_pressed k (fst c2) = is_pressed k (fst c1).
Proof.
  apply (X7_held_keys_are_silent 3%nat detent idle (set_key1Pressed 1 init_state)).
  - reflexivity.
  - split; [intros k; destruct k; reflexivity | reflexivity].
Defined.

(** X9.  [lampLight] latches the last direction seen: at the end of a run
    it is 1 if phase B read high in the last cycle in which phase A was
    asserted, 0 if it read low there, and what it was at the start if phase
    A was never asserted. *)
Theorem X9_last_direction_wins fuel inputs : forall s,
  Forall (fun inp => finishes fuel inp = true) inputs ->
  exists log,
    run fuel inputs s = Some log
    /\ lampLight (final_state s log) = last_direction inputs (lampLight s).
Proof.
  induction inputs as [|inp rest IH]; intros s F.
  - exists []. split; reflexivity.
  - inversion F as [|? ? Finp Frest]; subst.
    destruct (loop_body_finishes fuel inp s Finp) as (evs & L).
    destruct (IH (cycle_state inp s) Frest) as (log & R & Hl).
    exists ((cycle_state inp s, evs) :: log). cbn [run]. rewrite L, R.
    split; [reflexivity|].
    unfold final_state, last_direction in *. cbn [fold_left fst].
    rewrite Hl, cycle_lampLight. reflexivity.
Qed.

Lemma X9_last_direction_wins_witness :
  exists log,
    run 3 [detent; hold1; idle] init_state = Some log
    /\ lampLight (final_state init_state log)
       = last_direction [detent; hold1; idle] (lampLight init_state).
Proof.
  apply (X9_last_direction_wins 3%nat [detent; hold1; idle] init_state).
  repeat constructor.
Defined.

(** X10.  The fill loop of the boot branch, an 8-bit counter counting down
    to zero, ends after exactly as many [NEO_sendByte(127)] calls as its
    start value, for every start value.  So with key 1 held at power-on
    [main] latches, sends nine bytes and calls [BOOT_now] before any clock
    or HID set-up, and reaches the loop only if [BOOT_now] returns; with
    key 1 not held it sends nothing, does not call [BOOT_now], and enters
    the loop with the initial values. *)
Theorem X10_startup fuel :
  (9 < fuel)%nat ->
  (forall i, 0 <= i < 256 -> (Z.to_nat i < fuel)%nat ->
     boot_fill fuel i = Some (repeat (SeNeoSendByte 127) (Z.to_nat i)))
  /\ (forall boot_returns,
        startup fuel true boot_returns
        = Some ([SeNeoInit; SePinRead PIN_KEY1 true; SeClkConfig; SeHidInit;
                 SeDelay 10; SePinLow PIN_LED; SeNeoClearAll], Some init_state))
  /\ startup fuel false false
     = Some ([SeNeoInit; SePinRead PIN_KEY1 false; SeNeoLatch]
             ++ repeat (SeNeoSendByte 127) 9 ++ [SeBootNow], None)
  /\ startup fuel false true
     = Some ([SeNeoInit; SePinRead PIN_KEY1 false; SeNeoLatch]
             ++ repeat (SeNeoSendByte 127) 9
             ++ [SeBootNow; SeClkConfig; SeHidInit; SeDelay 10;
                 SePinLow PIN_LED; SeNeoClearAll], Some init_state).
Proof.
  intros Hf.
  split; [intros i Hi Hlt; apply boot_fill_counts; assumption|].
  split; [reflexivity|].
  unfold startup. cbn [negb].
  rewrite (boot_fill_counts fuel 9) by lia.
  split; reflexivity.
Qed.

Lemma X10_startup_witness :
  (forall i, 0 <= i < 256 -> (Z.to_nat i < 10)%nat ->
     boot_fill 10 i = Some (repeat (SeNeoSendByte 127) (Z.to_nat i)))
  /\ (forall boot_returns,
        startup 10 true boot_returns
        = Some ([SeNeoInit; SePinRead PIN_KEY1 true; SeClkConfig; SeHidInit;
                 SeDelay 10; SePinLow PIN_LED; SeNeoClearAll], Some init_state))
  /\ startup 10 false false
     = Some ([SeNeoInit; SePinRead PIN_KEY1 false; SeNeoLatch]
             ++ repeat (SeNeoSendByte 127) 9 ++ [SeBootNow], None)
  /\ startup 10 false true
     = Some ([SeNeoInit; SePinRead PIN_KEY1 false; SeNeoLatch]
             ++ repeat (SeNeoSendByte 127) 9
             ++ [SeBootNow; SeClkConfig; SeHidInit; SeDelay 10;
                 SePinLow PIN_LED; SeNeoClearAll], Some init_state).
Proof. apply (X10_startup 10%nat). lia. Defined.

Lemma last_led_app pixel acc a b :
  last_led pixel acc (a ++ b) = last_led pixel (last_led pixel acc a) b.
Proof. apply fold_left_app. Qed.

Lemma last_led_reads pixel acc ew :
  Forall (fun e => is_pin_read e = true) ew -> last_led pixel acc ew = acc.
Proof.
  induction 1 as [|e ew He _ IH]; [reflexivity|].
  destruct e; try discriminate. exact IH.
Qed.

Lemma last_led_dispatch k acc s :
  last_led (pixel_of k) acc (dispatch_events s)
  = if truthy (keyDirty s)
    then Some (led_command (pixel_of k) (is_pressed k s) (truthy (lampLight s)))
    else acc.
Proof.
  rewrite dispatch_events_explicit. unfold led_command.
  destruct (truthy (keyDirty s)); [|reflexivity].
  destruct k, (is_pressed K1 s), (is_pressed K2 s), (is_pressed K3 s),
    (truthy (lampLight s)); reflexivity.
Qed.

Lemma last_led_cycle fuel k acc inp ew s' :
  wait_result fuel inp = Some ew ->
  last_led (pixel_of k) acc (cycle_events inp ew s')
  = if truthy (keyDirty s')
    then Some (led_command (pixel_of k) (is_pressed k s') (truthy (lampLight s')))
    else acc.
Proof.
  intros W. apply wait_result_reads in W.
  unfold cycle_events. rewrite !last_led_app.
  assert (K : last_led (pixel_of k) acc (key_events inp) = acc).
  { unfold key_events. destruct (key3_level inp); reflexivity. }
  assert (E : last_led (pixel_of k) acc (encoder_events inp ew) = acc).
  { unfold encoder_events. destruct (enc_a_level inp); [reflexivity|].
    change (EvPinRead PIN_ENC_A false
            :: [EvPinRead PIN_ENC_B (enc_b_level inp); EvDelay 10] ++ ew)
      with ([EvPinRead PIN_ENC_A false; EvPinRead PIN_ENC_B (enc_b_level inp);
             EvDelay 10] ++ ew).
    rewrite last_led_app. apply last_led_reads. exact W. }
  rewrite K, E, last_led_dispatch.
  destruct (truthy (keyDirty s')); reflexivity.
Qed.

Lemma clean_cycle_keeps k inp s :
  truthy (keyDirty (cycle_state inp s)) = false ->
  is_pressed k (cycle_state inp s) = is_pressed k s
  /\ lampLight (cycle_state inp s) = lampLight s.
Proof.
  rewrite dirty_cycle, cycle_pressed, cycle_lampLight. unfold any_edge.
  intros H. apply orb_false_elim in H as [-> H].
  apply orb_false_elim in H as [H H3]. apply orb_false_elim in H as [H1 H2].
  split; [|reflexivity].
  destruct k; [apply xorb_eq, H1 | apply xorb_eq, H2 | apply xorb_eq, H3].
Qed.

(** X11.  The LED slots never go stale: over any run, the command a key's
    slot was last given is the colour for the key's tracked state and the
    lamp mode at the end of the run; and a slot that was given no command
    at all belongs to a run in which neither that key's tracked state nor
    [lampLight] differs from the start. *)
Theorem X11_led_slots_follow_state fuel inputs s k :
  Forall (fun inp => finishes fuel inp = true) inputs ->
  exists log,
    run fuel inputs s = Some log
    /\ match last_led (pixel_of k) None (all_events log) with
       | Some e =>
           e = led_command (pixel_of k) (is_pressed k (final_state s log))
                 (truthy (lampLight (final_state s log)))
       | None =>
           is_pressed k (final_state s log) = is_pressed k s
           /\ lampLight (final_state s log) = lampLight s
       end.
Proof.
  intros F. destruct (run_finishes fuel inputs s F) as (log & R & _).
  exists log. split; [exact R|]. clear F.
  assert (G : forall inputs s1 log acc,
    run fuel inputs s1 = Some log ->
    match acc with
    | Some e => e = led_command (pixel_of k) (is_pressed k s1) (truthy (lampLight s1))
    | None => is_pressed k s1 = is_pressed k s /\ lampLight s1 = lampLight s
    end ->
    match last_led (pixel_of k) acc (all_events log) with
    | Some e =>
        e = led_command (pixel_of k) (is_pressed k (final_state s1 log))
              (truthy (lampLight (final_state s1 log)))
    | None =>
        is_pressed k (final_state s1 log) = is_pressed k s
        /\ lampLight (final_state s1 log) = lampLight s
    end).
  { clear inputs log R.
    induction inputs as [|inp rest IH]; intros s1 log acc R J.
    - injection R as <-. exact J.
    - apply run_cons in R as (evs & log' & L & R' & ->).
      unfold all_events, final_state. cbn [flat_map fold_left fst snd].
      rewrite last_led_app.
      apply (IH (cycle_state inp s1) log' _ R').
      apply loop_body_inv in L as [_ (ew & W & ->)].
      rewrite (last_led_cycle fuel) by exact W.
      destruct (truthy (keyDirty (cycle_state inp s1))) eqn:D; [reflexivity|].
      destruct (clean_cycle_keeps k inp s1 D) as [Hp Hl].
      rewrite Hp, Hl. exact J. }
  apply (G inputs s log None R). split; reflexivity.
Qed.

Lemma X11_led_slots_follow_state_witness :
  exists log,
    run 3 [hold12; detent; hold2; idle] init_state = Some log
    /\ match last_led (pixel_of K1) None (all_events log) with
       | Some e =>
           e = led_command (pixel_of K1) (is_pressed K1 (final_state init_state log))
                 (truthy (lampLight (final_state init_state log)))
       | None =>
           is_pressed K1 (final_state init_state log) = is_pressed K1 init_state
           /\ lampLight (final_state init_state log) = lampLight init_state
       end.
Proof.
  apply (X11_led_slots_follow_state 3%nat [hold12; detent; hold2; idle] init_state K1).
  repeat constructor.
Defined.
